(** * salesbuddy: the report-extraction core of [src/App.tsx]

    A shallow embedding of the parsing and templating functions of
    [App.tsx] ([parseCompetitors], [parseApplications],
    [parseCustomerPersonas], [generateSalesEmail],
    [generateDiscoveryEmail] and the section splitting of
    [analyzeProduct]) together with the properties the specification
    states about them.

    Strings.  A JavaScript string is a sequence of 16-bit code units.  The
    embedding uses [string], a sequence of 8-bit characters: it covers the
    texts whose code units are below 256 (Latin-1).  On those texts
    [toLowerCase] works unit by unit and stays inside the range, and the
    white space of [trim] and of the regular expression class [\s] is the
    seven characters of [is_ws]. *)

From Stdlib Require Import String Ascii List Bool Arith Lia Permutation.
Import ListNotations.
Open Scope string_scope.
Open Scope bool_scope.
Open Scope nat_scope.

(** ** JavaScript string primitives *)

Module JS.

(** Code of a character. *)
Definition code (c : ascii) : nat := nat_of_ascii c.

(** [WhiteSpace] and [LineTerminator] below 256: TAB, LF, VT, FF, CR, SP
    and NBSP.  [String.prototype.trim] and [\s] share this class. *)
Definition is_ws (c : ascii) : bool :=
  let n := code c in
  (9 <=? n) && (n <=? 13) || (n =? 32) || (n =? 160).

(** The regular expression class [\d]. *)
Definition is_digit (c : ascii) : bool :=
  let n := code c in (48 <=? n) && (n <=? 57).

(** Lower-casing of one code unit: A-Z, and the Latin-1 capitals
    U+00C0..U+00DE except the multiplication sign U+00D7. *)
Definition lower_char (c : ascii) : ascii :=
  let n := code c in
  if (65 <=? n) && (n <=? 90) then ascii_of_nat (n + 32)
  else if (192 <=? n) && (n <=? 222) && negb (n =? 215) then ascii_of_nat (n + 32)
  else c.

(** [s.toLowerCase()] *)
Fixpoint toLowerCase (s : string) : string :=
  match s with
  | EmptyString => EmptyString
  | String c s' => String (lower_char c) (toLowerCase s')
  end.

(** Removal of the longest prefix of characters satisfying [p]. *)
Fixpoint dropWhile (p : ascii -> bool) (s : string) : string :=
  match s with
  | EmptyString => EmptyString
  | String c s' => if p c then dropWhile p s' else s
  end.

Definition trimStart (s : string) : string := dropWhile is_ws s.

Fixpoint trimEnd (s : string) : string :=
  match s with
  | EmptyString => EmptyString
  | String c s' =>
      match trimEnd s' with
      | EmptyString => if is_ws c then EmptyString else String c EmptyString
      | r => String c r
      end
  end.

(** [s.trim()] *)
Definition trim (s : string) : string := trimEnd (trimStart s).

(** Truthiness of a string value: [!s] holds exactly for the empty string. *)
Definition truthy (s : string) : bool := negb (s =? "")%string.

(** [c] is put in front of the first piece of a list of pieces. *)
Definition cons_head (c : ascii) (pieces : list string) : list string :=
  match pieces with
  | [] => [String c EmptyString]
  | p :: ps => String c p :: ps
  end.

(** [s.split(sep)] for a separator [sep] of one character.  The result has
    one piece more than [s] has separators; the empty string gives one
    empty piece. *)
Fixpoint split_char (sep : ascii) (s : string) : list string :=
  match s with
  | EmptyString => [EmptyString]
  | String c s' =>
      if Ascii.eqb c sep then EmptyString :: split_char sep s'
      else cons_head c (split_char sep s')
  end.

(** [parts.join(sep)] *)
Definition join (sep : string) (parts : list string) : string :=
  String.concat sep parts.

(** [s.includes(t)] *)
Fixpoint includes (s t : string) : bool :=
  String.prefix t s ||
  match s with
  | EmptyString => false
  | String _ s' => includes s' t
  end.

(** *** The regular expression [/\d+\.\s+/]

    A match at the start of [s]: one or more digits, a dot, one or more
    white-space characters.  Both repetitions are greedy and giving back a
    digit or a white-space character never lets a failed match succeed (the
    next character would have to be the dot, resp. the repetition would
    still be non-empty), so the match, when there is one, consumes the
    maximal runs.  The result is the text after the match. *)
Definition match_marker (s : string) : option string :=
  match s with
  | String d _ =>
      if is_digit d then
        match dropWhile is_digit s with
        | String x r =>
            if Ascii.eqb x "."%char then
              match r with
              | String w _ => if is_ws w then Some (dropWhile is_ws r) else None
              | EmptyString => None
              end
            else None
        | EmptyString => None
        end
      else None
  | EmptyString => None
  end.

(** [s.split(/\d+\.\s+/)]: the scan of [RegExp.prototype[Symbol.split]].
    At position [q] the expression is tried; on a match the piece collected
    so far is closed and the scan goes on after the match, otherwise the
    character at [q] joins the current piece.  A match is never empty, so
    the recursion is on a shorter text; [fuel] bounds it. *)
Fixpoint split_marker_fuel (fuel : nat) (s : string) : list string :=
  match fuel with
  | O => [s]
  | S fuel' =>
      match match_marker s with
      | Some rest => EmptyString :: split_marker_fuel fuel' rest
      | None =>
          match s with
          | EmptyString => [EmptyString]
          | String c s' => cons_head c (split_marker_fuel fuel' s')
          end
      end
  end.

Definition split_marker (s : string) : list string :=
  split_marker_fuel (S (String.length s)) s.

(** The number of matches the same scan finds: [s.match(/\d+\.\s+/g)]. *)
Fixpoint count_markers_fuel (fuel : nat) (s : string) : nat :=
  match fuel with
  | O => 0
  | S fuel' =>
      match match_marker s with
      | Some rest => S (count_markers_fuel fuel' rest)
      | None =>
          match s with
          | EmptyString => 0
          | String _ s' => count_markers_fuel fuel' s'
          end
      end
  end.

Definition count_markers (s : string) : nat :=
  count_markers_fuel (S (String.length s)) s.

(** *** Splitting on a look-ahead

    [s.split(/(?=r)/)] for an expression [r] that is tried at a position by
    [at_pos]: the match is empty, so the scan cuts before every position
    [q > 0] where [r] matches and consumes nothing; position 0 is never a
    cut (there the end of the match equals the start of the piece). *)
Fixpoint lookahead_cuts (at_pos : string -> bool) (s : string) : list string :=
  match s with
  | EmptyString => [EmptyString]
  | String c s' =>
      let pieces := cons_head c (lookahead_cuts at_pos s') in
      if at_pos s then EmptyString :: pieces else pieces
  end.

Definition split_lookahead (at_pos : string -> bool) (s : string) : list string :=
  match s with
  | EmptyString => [EmptyString]
  | String c s' => cons_head c (lookahead_cuts at_pos s')
  end.

End JS.

Import JS.

(** ** Data model ([interface Competitor], [Application], [CustomerPersona]) *)

Module Competitor.
Record t : Type := mk
  { name : string;
    description : string;
    headquarters : string;
    revenue : string }.
End Competitor.

Module Application.
Record t : Type := mk
  { name : string;
    description : string;
    marketSize : string;
    growthRate : string }.
End Application.

Module CustomerPersona.
Record t : Type := mk
  { name : string;
    description : string;
    caresMostAbout : string;
    caresLeastAbout : string;
    potentialCustomers : list string;
    salesEmail : option string;
    discoveryEmail : option string }.
End CustomerPersona.

(** [Partial<Competitor>]: every field may still be undefined. *)
Module PartialCompetitor.
Record t : Type := mk
  { name : option string;
    description : option string;
    headquarters : option string;
    revenue : option string }.
Definition empty : t := mk None None None None.
End PartialCompetitor.

Module PartialApplication.
Record t : Type := mk
  { name : option string;
    description : option string;
    marketSize : option string;
    growthRate : option string }.
Definition empty : t := mk None None None None.
End PartialApplication.

(** [Partial<CustomerPersona>] as the parser uses it: the object is created
    with [potentialCustomers: []], the two e-mails are added later by the
    final [map]. *)
Module PartialPersona.
Record t : Type := mk
  { name : option string;
    description : option string;
    caresMostAbout : option string;
    caresLeastAbout : option string;
    potentialCustomers : list string }.
Definition empty : t := mk None None None None [].
End PartialPersona.

(** ** The line parser

    [const [key, ...valueParts] = line.split(':').map(part => part.trim());
     const value = valueParts.join(':').trim();] *)

Definition LF : ascii := "010"%char.

Definition keyValue (line : string) : string * string :=
  match map trim (split_char ":"%char line) with
  | key :: valueParts => (key, trim (join ":" valueParts))
  | [] => (EmptyString, EmptyString)
  end.

(** [if (!key || !value) continue;] *)
Definition skipped (key value : string) : bool :=
  negb (truthy key) || negb (truthy value).

(** A field of a partial record passes the final test [if (x.f && ...)] when
    it is defined and not the empty string. *)
Definition present (field : option string) : bool :=
  match field with
  | Some v => truthy v
  | None => false
  end.

(** ** [parseCompetitors] *)

(** The body of the inner [for (const line of lines)] loop. *)
Definition competitorLine (competitor : PartialCompetitor.t) (line : string)
  : PartialCompetitor.t :=
  let (key, value) := keyValue line in
  if skipped key value then competitor
  else
    let k := toLowerCase key in
    let '(PartialCompetitor.mk n d h r) := competitor in
    if (k =? "name")%string then PartialCompetitor.mk (Some value) d h r
    else if (k =? "description")%string then PartialCompetitor.mk n (Some value) h r
    else if (k =? "headquarters")%string then PartialCompetitor.mk n d (Some value) r
    else if (k =? "revenue")%string then PartialCompetitor.mk n d h (Some value)
    else competitor.

(** The field mapping of one sub-record. *)
Definition competitorFields (section : string) : PartialCompetitor.t :=
  fold_left competitorLine (split_char LF section) PartialCompetitor.empty.

(** The final test and [competitor as Competitor]. *)
Definition competitorBuilt (competitor : PartialCompetitor.t) : option Competitor.t :=
  match competitor with
  | PartialCompetitor.mk (Some n) (Some d) (Some h) (Some r) =>
      if truthy n && truthy d && truthy h && truthy r
      then Some (Competitor.mk n d h r) else None
  | _ => None
  end.

(** The body of the outer [for (const section of sections)] loop; the
    accumulator is the array [competitors]. *)
Definition competitorSection (competitors : list Competitor.t) (section : string)
  : list Competitor.t :=
  if negb (truthy (trim section)) then competitors
  else
    match competitorBuilt (competitorFields section) with
    | Some c => competitors ++ [c]
    | None => competitors
    end.

Definition collectCompetitors (sections : list string) : list Competitor.t :=
  fold_left competitorSection sections [].

Definition parseCompetitors (text : string) : list Competitor.t :=
  collectCompetitors (split_marker text).

(** ** [parseApplications] *)

Definition applicationLine (application : PartialApplication.t) (line : string)
  : PartialApplication.t :=
  let (key, value) := keyValue line in
  if skipped key value then application
  else
    let k := toLowerCase key in
    let '(PartialApplication.mk n d m g) := application in
    if (k =? "name")%string then PartialApplication.mk (Some value) d m g
    else if (k =? "description")%string then PartialApplication.mk n (Some value) m g
    else if (k =? "market size")%string then PartialApplication.mk n d (Some value) g
    else if (k =? "growth rate")%string then PartialApplication.mk n d m (Some value)
    else application.

Definition applicationFields (section : string) : PartialApplication.t :=
  fold_left applicationLine (split_char LF section) PartialApplication.empty.

Definition applicationBuilt (application : PartialApplication.t) : option Application.t :=
  match application with
  | PartialApplication.mk (Some n) (Some d) (Some m) (Some g) =>
      if truthy n && truthy d && truthy m && truthy g
      then Some (Application.mk n d m g) else None
  | _ => None
  end.

Definition applicationSection (applications : list Application.t) (section : string)
  : list Application.t :=
  if negb (truthy (trim section)) then applications
  else
    match applicationBuilt (applicationFields section) with
    | Some a => applications ++ [a]
    | None => applications
    end.

Definition collectApplications (sections : list string) : list Application.t :=
  fold_left applicationSection sections [].

Definition parseApplications (text : string) : list Application.t :=
  collectApplications (split_marker text).

(** ** The template renderer *)

(** [generateSalesEmail(persona, productName)]: the template literal, its
    substitutions written as concatenations. *)
Definition generateSalesEmail (persona : CustomerPersona.t) (productName : string)
  : string :=
  "Subject: Streamline Your " ++ CustomerPersona.name persona
  ++ "'s Workflow with " ++ productName ++ "

Dear [Name],

I hope this email finds you well. I understand that as a "
  ++ CustomerPersona.name persona ++ ", you're focused on "
  ++ CustomerPersona.caresMostAbout persona ++ ".

" ++ productName
  ++ " was specifically designed to address these priorities while eliminating concerns about "
  ++ CustomerPersona.caresLeastAbout persona ++ ".

I'd love to schedule a brief 30-minute call to show you how "
  ++ productName ++ " can help you:
- Maximize "
  ++ nth 0 (split_char ","%char (CustomerPersona.caresMostAbout persona)) EmptyString
  ++ "
- Streamline your workflow
- Achieve better results with less effort

Would you be available for a quick call this week? I have slots open on Tuesday at 2 PM or Thursday at 10 AM.

Best regards,
[Your name]".

(** [generateDiscoveryEmail(persona, productName)] *)
Definition generateDiscoveryEmail (persona : CustomerPersona.t) (productName : string)
  : string :=
  "Subject: Quick question about your " ++ CustomerPersona.name persona
  ++ " challenges

Hi [Name],

I'm reaching out because we've been working with several "
  ++ CustomerPersona.name persona
  ++ "s who are dealing with challenges around "
  ++ CustomerPersona.caresMostAbout persona ++ ".

I'd love to learn more about:
- How you're currently handling these challenges
- What solutions you've tried before
- What would make the biggest impact on your workflow

Would you be open to a 15-minute conversation to share your insights? Your experience would be invaluable for our research.

Best regards,
[Your name]".

(** ** [parseCustomerPersonas] *)

Definition personaLine (persona : PartialPersona.t) (line : string)
  : PartialPersona.t :=
  let (key, value) := keyValue line in
  if skipped key value then persona
  else
    let k := toLowerCase key in
    let '(PartialPersona.mk n d m l pc) := persona in
    if (k =? "name")%string then PartialPersona.mk (Some value) d m l pc
    else if (k =? "description")%string then PartialPersona.mk n (Some value) m l pc
    else if (k =? "cares most about")%string then PartialPersona.mk n d (Some value) l pc
    else if (k =? "cares least about")%string then PartialPersona.mk n d m (Some value) pc
    else persona.

Definition personaFields (section : string) : PartialPersona.t :=
  fold_left personaLine (split_char LF section) PartialPersona.empty.

(** [x || ''] on a string [x]. *)
Definition or_empty (x : string) : string :=
  if truthy x then x else EmptyString.

(** The cross-referencing of one persona:
    [customersText.split('\n')
       .filter(line => line.toLowerCase().includes(persona.name?.toLowerCase() || ''))
       .map(line => line.split('-')[0].trim())
       .filter(customer => customer.length > 0)] *)
Definition relevantCustomers (name customersText : string) : list string :=
  let customerLines := split_char LF customersText in
  filter (fun customer => 0 <? String.length customer)
    (map (fun line => trim (nth 0 (split_char "-"%char line) EmptyString))
       (filter (fun line => includes (toLowerCase line) (or_empty (toLowerCase name)))
          customerLines)).

(** The final test, the cross-referencing and [persona as CustomerPersona];
    the e-mails are still undefined. *)
Definition personaBuilt (customersText : string) (persona : PartialPersona.t)
  : option CustomerPersona.t :=
  match persona with
  | PartialPersona.mk (Some n) (Some d) (Some m) (Some l) _ =>
      if truthy n && truthy d && truthy m && truthy l
      then Some (CustomerPersona.mk n d m l (relevantCustomers n customersText) None None)
      else None
  | _ => None
  end.

Definition personaSection (customersText : string)
  (personas : list CustomerPersona.t) (section : string) : list CustomerPersona.t :=
  if negb (truthy (trim section)) then personas
  else
    match personaBuilt customersText (personaFields section) with
    | Some p => personas ++ [p]
    | None => personas
    end.

Definition collectPersonas (customersText : string) (sections : list string)
  : list CustomerPersona.t :=
  fold_left (personaSection customersText) sections [].

(** [{...persona, salesEmail: ..., discoveryEmail: ...}] *)
Definition withEmails (productName : string) (persona : CustomerPersona.t)
  : CustomerPersona.t :=
  CustomerPersona.mk
    (CustomerPersona.name persona)
    (CustomerPersona.description persona)
    (CustomerPersona.caresMostAbout persona)
    (CustomerPersona.caresLeastAbout persona)
    (CustomerPersona.potentialCustomers persona)
    (Some (generateSalesEmail persona productName))
    (Some (generateDiscoveryEmail persona productName)).

(** [productName] is the component state the closure reads; here it is a
    parameter. *)
Definition parseCustomerPersonas (productName text customersText : string)
  : list CustomerPersona.t :=
  map (withEmails productName) (collectPersonas customersText (split_marker text)).

(** ** The section splitter of [analyzeProduct] *)

Definition sectionTitles : list string :=
  ["Competitors"; "Product Applications"; "Customer Personas"; "Potential Customers"].

(** A match of
    [\d+\.\s+(?:Competitors|Product Applications|Customer Personas|Potential Customers):]
    at the start of [s].  No title starts with a white-space character, so
    the greedy [\s+] decides the match. *)
Definition heading_at (s : string) : bool :=
  match match_marker s with
  | Some rest => existsb (fun title => String.prefix (title ++ ":") rest) sectionTitles
  | None => false
  end.

Record Fragments : Type := mkFragments
  { competitorsSection : string;
    applicationsSection : string;
    personasSection : string;
    customersSection : string }.

(** The body of the classifying loop: the first title found decides, a
    later fragment with the same title replaces an earlier one. *)
Definition classify (acc : Fragments) (section : string) : Fragments :=
  let '(mkFragments c a p k) := acc in
  if includes section "Competitors:" then mkFragments section a p k
  else if includes section "Product Applications:" then mkFragments c section p k
  else if includes section "Customer Personas:" then mkFragments c a section k
  else if includes section "Potential Customers:" then mkFragments c a p section
  else acc.

Definition sectionFragments (response : string) : Fragments :=
  fold_left classify (split_lookahead heading_at response)
    (mkFragments EmptyString EmptyString EmptyString EmptyString).

(** The three lists of [MarketData]. *)
Record MarketData : Type := mkMarketData
  { competitors : list Competitor.t;
    applications : list Application.t;
    customerPersonas : list CustomerPersona.t;
    rawResponse : string }.

(** The parsing part of [analyzeProduct], from the response text on. *)
Definition analyzeResponse (productName response : string) : MarketData :=
  let f := sectionFragments response in
  mkMarketData
    (parseCompetitors (competitorsSection f))
    (parseApplications (applicationsSection f))
    (parseCustomerPersonas productName (personasSection f) (customersSection f))
    response.

Definition sample_response : string :=
"1. Competitors:

1. Name: Acme
Description: Makes anvils
Headquarters: Tucson, USA
Revenue: $10B (2023: est.)

2. Name: Globex
Description: No headquarters given
Revenue: $1B

3. Customer Personas:

1. Name: VP of Sales
Description: Runs the sales team
Cares Most About: pipeline growth, forecast accuracy
Cares Least About: implementation details

4. Potential Customers:

1. VP of Sales at Acme - fits well
2. Random line".


(** * Notions of the specification

    The definitions of this part follow the words of the specification;
    the theorems compare them with the code above. *)

(** The text before the first [sep]; all of [s] when it has none. *)
Fixpoint before_first (sep : ascii) (s : string) : string :=
  match s with
  | EmptyString => EmptyString
  | String c s' =>
      if Ascii.eqb c sep then EmptyString else String c (before_first sep s')
  end.

(** The text after the first [sep], if [s] has one. *)
Fixpoint after_first (sep : ascii) (s : string) : option string :=
  match s with
  | EmptyString => None
  | String c s' => if Ascii.eqb c sep then Some s' else after_first sep s'
  end.

Fixpoint has_char (sep : ascii) (s : string) : bool :=
  match s with
  | EmptyString => false
  | String c s' => Ascii.eqb c sep || has_char sep s'
  end.

(** [s] begins with a marker [<integer>. ]. *)
Definition marker_at (s : string) : bool :=
  match match_marker s with
  | Some _ => true
  | None => false
  end.

(** The record split as the specification words it: the marker is a
    look-ahead, the pieces keep it. *)
Definition split_marker_lookahead (s : string) : list string :=
  split_lookahead marker_at s.

(** A line of a sub-record gives the field [label] a value: key and value
    are both non-empty and the key is [label] up to case. *)
Definition labelled (label line : string) : bool :=
  let (key, value) := keyValue line in
  negb (skipped key value) && (toLowerCase key =? label)%string.

(** The values the lines of a sub-record give to [label], in line order. *)
Definition valuesOf (label : string) (lines : list string) : list string :=
  map (fun line => snd (keyValue line)) (filter (labelled label) lines).

(** The last of them. *)
Definition lastValue (label : string) (lines : list string) : option string :=
  last (map Some (valuesOf label lines)) None.

(** A customers line is relevant to a persona name. *)
Definition relevant (name line : string) : bool :=
  includes (toLowerCase line) (toLowerCase name).

(** The customer label of a line. *)
Definition customerLabel (line : string) : string :=
  trim (before_first "-"%char line).

(** The cross-reference of a persona name over customers lines: the
    non-empty labels of the relevant lines, in line order. *)
Definition crossReferenceLines (name : string) (lines : list string) : list string :=
  filter truthy (map customerLabel (filter (relevant name) lines)).

Definition crossReference (name customersText : string) : list string :=
  crossReferenceLines name (split_char LF customersText).

(** The fixed prose of the two templates around their substitutions. *)
Definition salesTemplate (name productName most least firstSegment : string)
  : string :=
  "Subject: Streamline Your " ++ name ++ "'s Workflow with " ++ productName ++ "

Dear [Name],

I hope this email finds you well. I understand that as a " ++ name
  ++ ", you're focused on " ++ most ++ ".

" ++ productName
  ++ " was specifically designed to address these priorities while eliminating concerns about "
  ++ least ++ ".

I'd love to schedule a brief 30-minute call to show you how "
  ++ productName ++ " can help you:
- Maximize " ++ firstSegment ++ "
- Streamline your workflow
- Achieve better results with less effort

Would you be available for a quick call this week? I have slots open on Tuesday at 2 PM or Thursday at 10 AM.

Best regards,
[Your name]".

Definition discoveryTemplate (name most : string) : string :=
  "Subject: Quick question about your " ++ name ++ " challenges

Hi [Name],

I'm reaching out because we've been working with several " ++ name
  ++ "s who are dealing with challenges around " ++ most ++ ".

I'd love to learn more about:
- How you're currently handling these challenges
- What solutions you've tried before
- What would make the biggest impact on your workflow

Would you be open to a 15-minute conversation to share your insights? Your experience would be invaluable for our research.

Best regards,
[Your name]".

(** The subject line of an e-mail: its first line. *)
Definition subjectLine (email : string) : string :=
  before_first LF email.

(** A sub-record is complete when its four fields pass the final test. *)
Definition competitorComplete (c : PartialCompetitor.t) : bool :=
  present (PartialCompetitor.name c) && present (PartialCompetitor.description c)
  && present (PartialCompetitor.headquarters c) && present (PartialCompetitor.revenue c).

Definition applicationComplete (a : PartialApplication.t) : bool :=
  present (PartialApplication.name a) && present (PartialApplication.description a)
  && present (PartialApplication.marketSize a) && present (PartialApplication.growthRate a).

Definition personaComplete (p : PartialPersona.t) : bool :=
  present (PartialPersona.name p) && present (PartialPersona.description p)
  && present (PartialPersona.caresMostAbout p) && present (PartialPersona.caresLeastAbout p).

(** What one sub-record adds to the output list. *)
Definition competitorOf (section : string) : list Competitor.t :=
  competitorSection [] section.

Definition applicationOf (section : string) : list Application.t :=
  applicationSection [] section.

Definition personaOf (customersText section : string) : list CustomerPersona.t :=
  personaSection customersText [] section.

(** A fragment is empty or begins with a marker. *)
Definition headed (fragment : string) : Prop :=
  fragment = "" \/ marker_at fragment = true.

(** * [analyzeProduct]

    The handler reads the component state ([productName], [location]),
    the environment variable [VITE_OPENAI_API_KEY] and the answer of the
    chat-completion service, and writes the state through the setters
    [setError], [setLoading] and [setMarketData].  The service is outside
    the program: it is a parameter that maps the prompt to the outcome of
    the awaited call. *)

(** The prompt of [analyzeProduct]: the template literal. *)
Definition buildPrompt (productName location : string) : string :=
  "Analyze the following product and provide a detailed market analysis specific to the "
  ++ location
  ++ " market.

Product: "
  ++ productName
  ++ "
Location: "
  ++ location
  ++ "

Please consider local market conditions, regional competitors, and specific opportunities in "
  ++ location
  ++ ". Include information about:
- Local market dynamics
- Regional pricing strategies
- Local customer preferences
- Cultural considerations that might affect product adoption
- Local regulations or compliance requirements

Format your response EXACTLY as follows:

1. Competitors:

1. Name: [Company Name]
Description: [Brief description with focus on "
  ++ location
  ++ " presence]
Headquarters: [City, Country]
Revenue: [Annual revenue in USD]

2. Name: [Company Name]
Description: [Brief description with focus on "
  ++ location
  ++ " presence]
Headquarters: [City, Country]
Revenue: [Annual revenue in USD]

[Continue for at least 7 competitors with presence or impact in "
  ++ location
  ++ "...]

2. Product Applications:

1. Name: [Application Name]
Description: [Detailed description with "
  ++ location
  ++ "-specific use cases]
Market Size: [Total addressable market size in USD for "
  ++ location
  ++ "]
Growth Rate: [Annual growth rate as percentage in "
  ++ location
  ++ "]

[Continue for at least 5 applications relevant to "
  ++ location
  ++ "...]

3. Customer Personas:

1. Name: [Persona Name/Title]
Description: [Detailed description focused on "
  ++ location
  ++ " market]
Cares Most About: [Top priorities specific to "
  ++ location
  ++ "]
Cares Least About: [Lower priorities in "
  ++ location
  ++ " context]

[Continue for at least 5 personas common in "
  ++ location
  ++ "...]

4. Potential Customers:

1. [Specific role/title] at ["
  ++ location
  ++ "-based Company] - [Detailed explanation of fit and benefits]
2. [Specific role/title] at ["
  ++ location
  ++ "-based Company] - [Detailed explanation of fit and benefits]
[Continue for at least 10 specific roles from "
  ++ location
  ++ "-based organizations...]".

Module App.

(** What [setMarketData] stores: the three lists and [rawData], whose
    [response] is [rawResponse] and whose [prompt] is [rawPrompt]. *)
Record Analysis : Type := mkAnalysis
  { data : MarketData;
    rawPrompt : string }.

(** The state of the component that the handler reads and writes
    ([activeTab] plays no part in it). *)
Record State : Type := mkState
  { productName : string;
    location : string;
    marketData : option Analysis;
    loading : bool;
    error : option string }.

(** A call of a setter. *)
Inductive Update : Type :=
  | SetError (e : option string)
  | SetLoading (b : bool)
  | SetMarketData (d : option Analysis).

(** The outcome of [await openai.chat.completions.create(...)]: the promise
    is rejected with an error whose [message] may be undefined, or it
    resolves, and [completion.choices[0]?.message?.content] is a string or
    is undefined or null.  [console.error] in [catch] writes to the console
    only and is left out. *)
Inductive Completion : Type :=
  | Rejected (message : option string)
  | Resolved (content : option string).

Definition apply (st : State) (u : Update) : State :=
  match u with
  | SetError e => mkState (productName st) (location st) (marketData st) (loading st) e
  | SetLoading b => mkState (productName st) (location st) (marketData st) b (error st)
  | SetMarketData d => mkState (productName st) (location st) d (loading st) (error st)
  end.

(** [err.message || 'An unexpected error occurred'] *)
Definition errorMessage (message : option string) : string :=
  match message with
  | Some m => if truthy m then m else "An unexpected error occurred"
  | None => "An unexpected error occurred"
  end.

(** The body of [try]: the value set by [setMarketData], or the message of
    the error thrown. *)
Definition attempt (apiKey : option string) (service : string -> Completion)
  (productName location : string) : Analysis + option string :=
  if negb (present apiKey) then inr (Some "OpenAI API key is not configured")
  else
    let prompt := buildPrompt productName location in
    match service prompt with
    | Rejected message => inr message
    | Resolved (Some response) =>
        if negb (truthy response) then inr (Some "No response received from OpenAI")
        else inl (mkAnalysis (analyzeResponse productName response) prompt)
    | Resolved None => inr (Some "No response received from OpenAI")
    end.

(** The setter calls of one run of the handler, in order. *)
Definition analyzeProduct (apiKey : option string) (service : string -> Completion)
  (st : State) : list Update :=
  if negb (truthy (trim (productName st))) then
    [SetError (Some "Please enter a product name")]
  else if negb (truthy (trim (location st))) then
    [SetError (Some "Please enter a location")]
  else
    ([SetLoading true; SetError None; SetMarketData None]
     ++ match attempt apiKey service (productName st) (location st) with
        | inl analysis => [SetMarketData (Some analysis)]
        | inr message => [SetError (Some (errorMessage message))]
        end
     ++ [SetLoading false])%list.

(** The state after the run. *)
Definition run (apiKey : option string) (service : string -> Completion)
  (st : State) : State :=
  fold_left apply (analyzeProduct apiKey service st) st.

End App.

(** The four required fields of a persona. *)
Definition personaCore (p : CustomerPersona.t) : string * string * string * string :=
  (CustomerPersona.name p, CustomerPersona.description p,
   CustomerPersona.caresMostAbout p, CustomerPersona.caresLeastAbout p).

(** Every character of [s] satisfies [f]. *)
Fixpoint all_chars (f : ascii -> bool) (s : string) : bool :=
  match s with
  | EmptyString => true
  | String c s' => f c && all_chars f s'
  end.

(** The fragment variables over the pieces of a list [L]: each is empty or
    a piece of [L] that includes its title and none of the titles tested
    before it. *)
Definition fragments_sorted (L : list string) (f : Fragments) : Prop :=
  (competitorsSection f = ""
   \/ In (competitorsSection f) L
      /\ includes (competitorsSection f) "Competitors:" = true)
  /\ (applicationsSection f = ""
      \/ In (applicationsSection f) L
         /\ includes (applicationsSection f) "Product Applications:" = true
         /\ includes (applicationsSection f) "Competitors:" = false)
  /\ (personasSection f = ""
      \/ In (personasSection f) L
         /\ includes (personasSection f) "Customer Personas:" = true
         /\ includes (personasSection f) "Competitors:" = false
         /\ includes (personasSection f) "Product Applications:" = false)
  /\ (customersSection f = ""
      \/ In (customersSection f) L
         /\ includes (customersSection f) "Potential Customers:" = true
         /\ includes (customersSection f) "Competitors:" = false
         /\ includes (customersSection f) "Product Applications:" = false
         /\ includes (customersSection f) "Customer Personas:" = false).

(** A character other than a digit. *)
Definition not_digit (c : ascii) : bool := negb (is_digit c).


(** A stored value is clean: trimming changes nothing and it holds no line
    break. *)
Definition clean (v : string) : Prop :=
  trim v = v /\ has_char LF v = false.

(** The last character of [s] is [c]. *)
Fixpoint ends_with (c : ascii) (s : string) : bool :=
  match s with
  | EmptyString => false
  | String x s' =>
      match s' with
      | EmptyString => Ascii.eqb x c
      | String _ _ => ends_with c s'
      end
  end.

(** The fragments after the classifying chain has seen one piece [s]. *)
Definition classified_whole (s : string) : Fragments :=
  if includes s "Competitors:" then mkFragments s "" "" ""
  else if includes s "Product Applications:" then mkFragments "" s "" ""
  else if includes s "Customer Personas:" then mkFragments "" "" s ""
  else if includes s "Potential Customers:" then mkFragments "" "" "" s
  else mkFragments "" "" "" "".
(** * Facts about the string primitives *)

Section StringFacts.

Lemma truthy_true (s : string) : truthy s = true <-> s <> EmptyString.
Proof.
  unfold truthy. destruct s; simpl; split; intro H;
    try discriminate; try reflexivity; try congruence.
Qed.

Lemma truthy_false (s : string) : truthy s = false <-> s = EmptyString.
Proof.
  unfold truthy. destruct s; simpl; split; intro H;
    try discriminate; try reflexivity.
Qed.

Lemma length_app (a b : string) :
  String.length (a ++ b) = String.length a + String.length b.
Proof. induction a as [|c a IH]; simpl; [reflexivity | now rewrite IH]. Qed.

Lemma app_empty_r (s : string) : s ++ "" = s.
Proof. induction s as [|c s IH]; simpl; [reflexivity | now rewrite IH]. Qed.

Lemma app_assoc (a b c : string) : (a ++ b) ++ c = a ++ b ++ c.
Proof. induction a as [|x a IH]; simpl; [reflexivity | now rewrite IH]. Qed.

Lemma dropWhile_length (p : ascii -> bool) (s : string) :
  String.length (dropWhile p s) <= String.length s.
Proof.
  induction s as [|c s IH]; simpl; [lia|].
  destruct (p c); simpl; lia.
Qed.

(** What follows a dropped run does not matter once the run is closed by a
    character of the text. *)
Lemma dropWhile_app (p : ascii -> bool) (s t : string) (x : ascii) (r : string) :
  dropWhile p s = String x r -> dropWhile p (s ++ t) = String x r ++ t.
Proof.
  induction s as [|c s IH]; simpl; [discriminate|].
  destruct (p c); [exact IH|].
  intro H. injection H as -> ->. reflexivity.
Qed.

(** *** [trim] *)

Lemma trimEnd_idem (s : string) : trimEnd (trimEnd s) = trimEnd s.
Proof.
  induction s as [|c s IH]; simpl; [reflexivity|].
  destruct (trimEnd s) as [|d r] eqn:E.
  - destruct (is_ws c) eqn:W; simpl; [reflexivity | now rewrite W].
  - simpl in IH |- *. now rewrite IH.
Qed.

Lemma trimStart_head (s : string) :
  match trimStart s with
  | EmptyString => True
  | String c _ => is_ws c = false
  end.
Proof.
  unfold trimStart. induction s as [|c s IH]; simpl; [exact I|].
  destruct (is_ws c) eqn:W; [exact IH | exact W].
Qed.

Lemma trimStart_fixed (s : string) :
  match s with EmptyString => True | String c _ => is_ws c = false end ->
  trimStart s = s.
Proof.
  destruct s as [|c s]; simpl; [reflexivity|].
  intro W. unfold trimStart. simpl. now rewrite W.
Qed.

Lemma trimEnd_head (s : string) :
  match s with EmptyString => True | String c _ => is_ws c = false end ->
  match trimEnd s with EmptyString => True | String c _ => is_ws c = false end.
Proof.
  destruct s as [|c s]; simpl; [trivial|].
  intro W. destruct (trimEnd s); [now rewrite W | exact W].
Qed.

Lemma trim_idem (s : string) : trim (trim s) = trim s.
Proof.
  unfold trim.
  rewrite (trimStart_fixed (trimEnd (trimStart s))).
  - apply trimEnd_idem.
  - apply trimEnd_head, trimStart_head.
Qed.

Lemma trim_empty : trim "" = "".
Proof. reflexivity. Qed.

(** *** [split] on a character *)

Lemma split_char_nonempty (sep : ascii) (s : string) : split_char sep s <> [].
Proof.
  induction s as [|c s IH]; simpl; [discriminate|].
  destruct (Ascii.eqb c sep); [discriminate|].
  destruct (split_char sep s); [contradiction | discriminate].
Qed.

End StringFacts.

Section SplitFacts.

Lemma split_char_head (sep : ascii) (s : string) :
  nth 0 (split_char sep s) EmptyString = before_first sep s.
Proof.
  induction s as [|c s IH]; simpl; [reflexivity|].
  destruct (Ascii.eqb c sep); [reflexivity|].
  pose proof (split_char_nonempty sep s) as NE.
  destruct (split_char sep s) as [|p ps]; [contradiction|].
  simpl in *. now rewrite IH.
Qed.

Lemma split_char_cons (sep : ascii) (s : string) :
  split_char sep s =
  before_first sep s ::
    match after_first sep s with
    | Some v => split_char sep v
    | None => []
    end.
Proof.
  induction s as [|c s IH]; simpl; [reflexivity|].
  destruct (Ascii.eqb c sep); [reflexivity|].
  rewrite IH. reflexivity.
Qed.

Lemma before_first_none (sep : ascii) (s : string) :
  has_char sep s = false -> before_first sep s = s.
Proof.
  induction s as [|c s IH]; simpl; [reflexivity|].
  destruct (Ascii.eqb c sep); simpl; [discriminate|].
  intro H. now rewrite IH.
Qed.

Lemma after_first_none (sep : ascii) (s : string) :
  has_char sep s = false -> after_first sep s = None.
Proof.
  induction s as [|c s IH]; simpl; [reflexivity|].
  destruct (Ascii.eqb c sep); simpl; [discriminate | exact IH].
Qed.

Lemma split_char_none (sep : ascii) (s : string) :
  has_char sep s = false -> split_char sep s = [s].
Proof.
  intro H. rewrite split_char_cons.
  now rewrite before_first_none, after_first_none.
Qed.

(** Joining the pieces with the separator gives the text back: [split]
    alone loses nothing. *)
Lemma join_split_char (sep : ascii) (s : string) :
  join (String sep EmptyString) (split_char sep s) = s.
Proof.
  unfold join. induction s as [|c s IH]; simpl; [reflexivity|].
  pose proof (split_char_nonempty sep s) as NE.
  destruct (Ascii.eqb c sep) eqn:E.
  - apply Ascii.eqb_eq in E. subst c.
    destruct (split_char sep s) as [|p ps]; [contradiction|].
    simpl in *. now rewrite IH.
  - destruct (split_char sep s) as [|p ps]; [contradiction|].
    simpl in *. destruct ps; simpl in *; now rewrite IH.
Qed.

End SplitFacts.

(** * The marker scan *)

Section MarkerFacts.

Lemma match_marker_shorter (s rest : string) :
  match_marker s = Some rest -> String.length rest < String.length s.
Proof.
  unfold match_marker. destruct s as [|d s0]; [discriminate|].
  destruct (is_digit d); [|discriminate].
  pose proof (dropWhile_length is_digit (String d s0)) as L1.
  destruct (dropWhile is_digit (String d s0)) as [|x r]; [discriminate|].
  destruct (Ascii.eqb x "."%char); [|discriminate].
  destruct r as [|w r']; [discriminate|].
  destruct (is_ws w); [|discriminate].
  intro H. injection H as <-.
  pose proof (dropWhile_length is_ws (String w r')) as L2.
  simpl in *. lia.
Qed.

Lemma match_marker_empty : match_marker "" = None.
Proof. reflexivity. Qed.

(** Fuel beyond the length of the text changes nothing. *)
Lemma split_marker_fuel_enough (n m : nat) (s : string) :
  String.length s < n -> String.length s < m ->
  split_marker_fuel n s = split_marker_fuel m s.
Proof.
  revert m s. induction n as [|n IH]; intros m s Hn Hm; [lia|].
  destruct m as [|m]; [lia|]. simpl.
  destruct (match_marker s) as [rest|] eqn:E.
  - apply match_marker_shorter in E. f_equal. apply IH; lia.
  - destruct s as [|c s']; [reflexivity|]. simpl in *.
    f_equal. apply IH; lia.
Qed.

Lemma count_markers_fuel_enough (n m : nat) (s : string) :
  String.length s < n -> String.length s < m ->
  count_markers_fuel n s = count_markers_fuel m s.
Proof.
  revert m s. induction n as [|n IH]; intros m s Hn Hm; [lia|].
  destruct m as [|m]; [lia|]. simpl.
  destruct (match_marker s) as [rest|] eqn:E.
  - apply match_marker_shorter in E. f_equal. apply IH; lia.
  - destruct s as [|c s']; [reflexivity|]. simpl in *.
    apply IH; lia.
Qed.

Lemma split_marker_fuel_S (n : nat) (s : string) :
  split_marker_fuel (S n) s =
  match match_marker s with
  | Some rest => EmptyString :: split_marker_fuel n rest
  | None =>
      match s with
      | EmptyString => [EmptyString]
      | String c s' => cons_head c (split_marker_fuel n s')
      end
  end.
Proof. reflexivity. Qed.

Lemma count_markers_fuel_S (n : nat) (s : string) :
  count_markers_fuel (S n) s =
  match match_marker s with
  | Some rest => S (count_markers_fuel n rest)
  | None =>
      match s with
      | EmptyString => 0
      | String _ s' => count_markers_fuel n s'
      end
  end.
Proof. reflexivity. Qed.

(** The equations of the scan, free of fuel. *)
Lemma split_marker_match (s rest : string) :
  match_marker s = Some rest ->
  split_marker s = EmptyString :: split_marker rest.
Proof.
  intro E. unfold split_marker.
  rewrite (split_marker_fuel_S (String.length s) s), E. f_equal.
  apply match_marker_shorter in E.
  apply split_marker_fuel_enough; lia.
Qed.

Lemma split_marker_step (c : ascii) (s : string) :
  match_marker (String c s) = None ->
  split_marker (String c s) = cons_head c (split_marker s).
Proof.
  intro E. unfold split_marker.
  rewrite (split_marker_fuel_S (String.length (String c s)) (String c s)), E.
  reflexivity.
Qed.

Lemma split_marker_empty : split_marker "" = [EmptyString].
Proof. reflexivity. Qed.

Lemma count_markers_match (s rest : string) :
  match_marker s = Some rest ->
  count_markers s = S (count_markers rest).
Proof.
  intro E. unfold count_markers.
  rewrite (count_markers_fuel_S (String.length s) s), E. f_equal.
  apply match_marker_shorter in E.
  apply count_markers_fuel_enough; lia.
Qed.

Lemma count_markers_step (c : ascii) (s : string) :
  match_marker (String c s) = None ->
  count_markers (String c s) = count_markers s.
Proof.
  intro E. unfold count_markers.
  rewrite (count_markers_fuel_S (String.length (String c s)) (String c s)), E.
  reflexivity.
Qed.

(** Induction along the scan. *)
Lemma marker_scan_ind (P : string -> Prop) :
  P EmptyString ->
  (forall s rest, match_marker s = Some rest -> P rest -> P s) ->
  (forall c s, match_marker (String c s) = None -> P s -> P (String c s)) ->
  forall s, P s.
Proof.
  intros H0 Hm Hs s.
  remember (String.length s) as n eqn:Hn.
  revert s Hn. induction n as [n IH] using lt_wf_ind. intros s Hn.
  destruct (match_marker s) as [rest|] eqn:E.
  - apply (Hm s rest E).
    apply (IH (String.length rest)); [|reflexivity].
    apply match_marker_shorter in E. lia.
  - destruct s as [|c s']; [exact H0|].
    apply (Hs c s' E). apply (IH (String.length s')); [|reflexivity].
    simpl in Hn. lia.
Qed.

Lemma split_marker_nonempty (s : string) : split_marker s <> [].
Proof.
  induction s as [|s rest E IH|c s E IH] using marker_scan_ind.
  - discriminate.
  - rewrite (split_marker_match _ _ E). discriminate.
  - rewrite (split_marker_step _ _ E).
    destruct (split_marker s); [contradiction | discriminate].
Qed.

(** One piece more than markers. *)
Lemma split_marker_length (s : string) :
  List.length (split_marker s) = S (count_markers s).
Proof.
  induction s as [|s rest E IH|c s E IH] using marker_scan_ind.
  - reflexivity.
  - rewrite (split_marker_match _ _ E), (count_markers_match _ _ E).
    simpl. now rewrite IH.
  - rewrite (split_marker_step _ _ E), (count_markers_step _ _ E).
    pose proof (split_marker_nonempty s) as NE.
    destruct (split_marker s); [contradiction|]. exact IH.
Qed.

(** The first piece is a prefix of the text. *)
Lemma split_marker_first (s p : string) (ps : list string) :
  split_marker s = p :: ps -> exists t, s = p ++ t.
Proof.
  revert p ps.
  induction s as [|s rest E IH|c s E IH] using marker_scan_ind; intros p ps H.
  - injection H as <- <-. now exists EmptyString.
  - rewrite (split_marker_match _ _ E) in H. injection H as <- _. now exists s.
  - rewrite (split_marker_step _ _ E) in H.
    pose proof (split_marker_nonempty s) as NE.
    destruct (split_marker s) as [|q qs] eqn:Q; [contradiction|].
    simpl in H. injection H as <- _.
    destruct (IH q qs eq_refl) as [t ->]. now exists t.
Qed.

(** A match stays a match when text is appended. *)
Lemma match_marker_app (s rest t : string) :
  match_marker s = Some rest -> exists rest', match_marker (s ++ t) = Some rest'.
Proof.
  unfold match_marker. destruct s as [|d s0]; [discriminate|].
  cbn [append]. cbv beta iota.
  destruct (is_digit d) eqn:D; [|discriminate].
  destruct (dropWhile is_digit (String d s0)) as [|x r] eqn:E; [discriminate|].
  change (String d (s0 ++ t)) with (String d s0 ++ t).
  rewrite (dropWhile_app _ _ t _ _ E). cbn [append].
  destruct (Ascii.eqb x "."%char); [|discriminate].
  destruct r as [|w r']; [discriminate|]. cbn [append].
  destruct (is_ws w); [|discriminate]. intros _. eauto.
Qed.

(** No piece of the split contains a marker. *)
Lemma split_marker_pieces_clean (s p : string) :
  In p (split_marker s) -> count_markers p = 0.
Proof.
  revert p.
  induction s as [|s rest E IH|c s E IH] using marker_scan_ind; intros p H.
  - destruct H as [<-|[]]. reflexivity.
  - rewrite (split_marker_match _ _ E) in H. destruct H as [<-|H].
    + reflexivity.
    + now apply IH.
  - rewrite (split_marker_step _ _ E) in H.
    pose proof (split_marker_nonempty s) as NE.
    destruct (split_marker s) as [|q qs] eqn:Q; [contradiction|].
    simpl in H. destruct H as [<-|H].
    + destruct (split_marker_first s q qs Q) as [t Ht].
      destruct (match_marker (String c q)) as [r|] eqn:M.
      * destruct (match_marker_app _ _ t M) as [r' M'].
        change (String c q ++ t) with (String c (q ++ t)) in M'.
        rewrite <- Ht in M'. congruence.
      * rewrite (count_markers_step _ _ M). apply IH. now left.
    + apply IH. now right.
Qed.

(** A text without marker is one piece. *)
Lemma split_marker_clean (s : string) :
  count_markers s = 0 -> split_marker s = [s].
Proof.
  induction s as [|s rest E IH|c s E IH] using marker_scan_ind; intro H.
  - reflexivity.
  - rewrite (count_markers_match _ _ E) in H. discriminate.
  - rewrite (count_markers_step _ _ E) in H.
    rewrite (split_marker_step _ _ E), (IH H). reflexivity.
Qed.

End MarkerFacts.

(** * The three parsers *)

Section ParserFacts.

(** A loop that only pushes is a [flat_map]. *)
Lemma fold_left_push (A : Type) (step : list A -> string -> list A)
  (f : string -> list A) :
  (forall acc s, step acc s = (acc ++ f s)%list) ->
  forall l acc, fold_left step l acc = (acc ++ flat_map f l)%list.
Proof.
  intros Hstep l. induction l as [|s l IH]; intro acc; simpl.
  - now rewrite app_nil_r.
  - rewrite IH, Hstep, <- List.app_assoc. reflexivity.
Qed.

Lemma competitorSection_push (acc : list Competitor.t) (s : string) :
  competitorSection acc s = (acc ++ competitorOf s)%list.
Proof.
  unfold competitorOf, competitorSection.
  destruct (negb (truthy (trim s))); [now rewrite app_nil_r|].
  destruct (competitorBuilt (competitorFields s)); [reflexivity | now rewrite app_nil_r].
Qed.

Lemma applicationSection_push (acc : list Application.t) (s : string) :
  applicationSection acc s = (acc ++ applicationOf s)%list.
Proof.
  unfold applicationOf, applicationSection.
  destruct (negb (truthy (trim s))); [now rewrite app_nil_r|].
  destruct (applicationBuilt (applicationFields s)); [reflexivity | now rewrite app_nil_r].
Qed.

Lemma personaSection_push (customersText : string)
  (acc : list CustomerPersona.t) (s : string) :
  personaSection customersText acc s = (acc ++ personaOf customersText s)%list.
Proof.
  unfold personaOf, personaSection.
  destruct (negb (truthy (trim s))); [now rewrite app_nil_r|].
  destruct (personaBuilt customersText (personaFields s));
    [reflexivity | now rewrite app_nil_r].
Qed.

Lemma collectCompetitors_flat (sections : list string) :
  collectCompetitors sections = flat_map competitorOf sections.
Proof.
  unfold collectCompetitors.
  now rewrite (fold_left_push _ _ _ competitorSection_push).
Qed.

Lemma collectApplications_flat (sections : list string) :
  collectApplications sections = flat_map applicationOf sections.
Proof.
  unfold collectApplications.
  now rewrite (fold_left_push _ _ _ applicationSection_push).
Qed.

Lemma collectPersonas_flat (customersText : string) (sections : list string) :
  collectPersonas customersText sections
  = flat_map (personaOf customersText) sections.
Proof.
  unfold collectPersonas.
  now rewrite (fold_left_push _ _ _ (personaSection_push customersText)).
Qed.

(** What the final test lets through. *)
Lemma competitorBuilt_Some (p : PartialCompetitor.t) (c : Competitor.t) :
  competitorBuilt p = Some c ->
  p = PartialCompetitor.mk (Some (Competitor.name c)) (Some (Competitor.description c))
        (Some (Competitor.headquarters c)) (Some (Competitor.revenue c))
  /\ truthy (Competitor.name c) = true /\ truthy (Competitor.description c) = true
  /\ truthy (Competitor.headquarters c) = true /\ truthy (Competitor.revenue c) = true.
Proof.
  destruct p as [[n|] [d|] [h|] [r|]]; simpl; try discriminate.
  destruct (truthy n) eqn:Tn, (truthy d) eqn:Td, (truthy h) eqn:Th,
    (truthy r) eqn:Tr; simpl; try discriminate.
  intro H. injection H as <-. simpl. auto.
Qed.

Lemma applicationBuilt_Some (p : PartialApplication.t) (a : Application.t) :
  applicationBuilt p = Some a ->
  p = PartialApplication.mk (Some (Application.name a)) (Some (Application.description a))
        (Some (Application.marketSize a)) (Some (Application.growthRate a))
  /\ truthy (Application.name a) = true /\ truthy (Application.description a) = true
  /\ truthy (Application.marketSize a) = true /\ truthy (Application.growthRate a) = true.
Proof.
  destruct p as [[n|] [d|] [m|] [g|]]; simpl; try discriminate.
  destruct (truthy n) eqn:Tn, (truthy d) eqn:Td, (truthy m) eqn:Tm,
    (truthy g) eqn:Tg; simpl; try discriminate.
  intro H. injection H as <-. simpl. auto.
Qed.

Lemma personaBuilt_Some (customersText : string) (p : PartialPersona.t)
  (q : CustomerPersona.t) :
  personaBuilt customersText p = Some q ->
  PartialPersona.name p = Some (CustomerPersona.name q)
  /\ PartialPersona.description p = Some (CustomerPersona.description q)
  /\ PartialPersona.caresMostAbout p = Some (CustomerPersona.caresMostAbout q)
  /\ PartialPersona.caresLeastAbout p = Some (CustomerPersona.caresLeastAbout q)
  /\ CustomerPersona.potentialCustomers q
     = relevantCustomers (CustomerPersona.name q) customersText
  /\ truthy (CustomerPersona.name q) = true
  /\ truthy (CustomerPersona.description q) = true
  /\ truthy (CustomerPersona.caresMostAbout q) = true
  /\ truthy (CustomerPersona.caresLeastAbout q) = true.
Proof.
  destruct p as [[n|] [d|] [m|] [l|] pc]; simpl; try discriminate.
  destruct (truthy n) eqn:Tn, (truthy d) eqn:Td, (truthy m) eqn:Tm,
    (truthy l) eqn:Tl; simpl; try discriminate.
  intro H. injection H as <-. simpl. repeat split; auto.
Qed.

(** An incomplete mapping builds nothing. *)
Lemma competitorBuilt_incomplete (p : PartialCompetitor.t) :
  competitorComplete p = false -> competitorBuilt p = None.
Proof.
  unfold competitorComplete.
  destruct p as [[n|] [d|] [h|] [r|]]; simpl; try reflexivity.
  now intros ->.
Qed.

Lemma applicationBuilt_incomplete (p : PartialApplication.t) :
  applicationComplete p = false -> applicationBuilt p = None.
Proof.
  unfold applicationComplete.
  destruct p as [[n|] [d|] [m|] [g|]]; simpl; try reflexivity.
  now intros ->.
Qed.

Lemma personaBuilt_incomplete (customersText : string) (p : PartialPersona.t) :
  personaComplete p = false -> personaBuilt customersText p = None.
Proof.
  unfold personaComplete.
  destruct p as [[n|] [d|] [m|] [l|] pc]; simpl; try reflexivity.
  now intros ->.
Qed.

(** The entities of one sub-record. *)
Lemma competitorOf_In (s : string) (c : Competitor.t) :
  In c (competitorOf s) ->
  truthy (trim s) = true /\ competitorBuilt (competitorFields s) = Some c.
Proof.
  unfold competitorOf, competitorSection.
  destruct (truthy (trim s)); simpl; [|contradiction].
  destruct (competitorBuilt (competitorFields s)); simpl; [|contradiction].
  intros [<-|[]]. auto.
Qed.

Lemma applicationOf_In (s : string) (a : Application.t) :
  In a (applicationOf s) ->
  truthy (trim s) = true /\ applicationBuilt (applicationFields s) = Some a.
Proof.
  unfold applicationOf, applicationSection.
  destruct (truthy (trim s)); simpl; [|contradiction].
  destruct (applicationBuilt (applicationFields s)); simpl; [|contradiction].
  intros [<-|[]]. auto.
Qed.

Lemma personaOf_In (customersText s : string) (p : CustomerPersona.t) :
  In p (personaOf customersText s) ->
  truthy (trim s) = true /\ personaBuilt customersText (personaFields s) = Some p.
Proof.
  unfold personaOf, personaSection.
  destruct (truthy (trim s)); simpl; [|contradiction].
  destruct (personaBuilt customersText (personaFields s)); simpl; [|contradiction].
  intros [<-|[]]. auto.
Qed.

(** A persona of the output comes from one sub-record. *)
Lemma parseCustomerPersonas_In (productName text customersText : string)
  (p : CustomerPersona.t) :
  In p (parseCustomerPersonas productName text customersText) ->
  exists q section,
    p = withEmails productName q
    /\ In section (split_marker text)
    /\ truthy (trim section) = true
    /\ personaBuilt customersText (personaFields section) = Some q.
Proof.
  unfold parseCustomerPersonas. intro H.
  apply in_map_iff in H. destruct H as [q [<- H]].
  rewrite collectPersonas_flat in H. apply in_flat_map in H.
  destruct H as [section [Hs H]]. apply personaOf_In in H.
  exists q, section. tauto.
Qed.

(** Each sub-record adds at most one entity. *)
Lemma flat_map_at_most_one (A : Type) (f : string -> list A) (l : list string) :
  (forall s, List.length (f s) <= 1) ->
  List.length (flat_map f l) <= List.length l.
Proof.
  intro H. induction l as [|s l IH]; simpl; [lia|].
  rewrite List.length_app. specialize (H s). lia.
Qed.

Lemma competitorOf_length (s : string) : List.length (competitorOf s) <= 1.
Proof.
  unfold competitorOf, competitorSection.
  destruct (negb (truthy (trim s))); simpl; [lia|].
  destruct (competitorBuilt (competitorFields s)); simpl; lia.
Qed.

Lemma applicationOf_length (s : string) : List.length (applicationOf s) <= 1.
Proof.
  unfold applicationOf, applicationSection.
  destruct (negb (truthy (trim s))); simpl; [lia|].
  destruct (applicationBuilt (applicationFields s)); simpl; lia.
Qed.

Lemma personaOf_length (customersText s : string) :
  List.length (personaOf customersText s) <= 1.
Proof.
  unfold personaOf, personaSection.
  destruct (negb (truthy (trim s))); simpl; [lia|].
  destruct (personaBuilt customersText (personaFields s)); simpl; lia.
Qed.

End ParserFacts.

(** * Completeness of the built entities *)

Section Invariant.

Lemma competitorOf_incomplete (s : string) :
  competitorComplete (competitorFields s) = false -> competitorOf s = [].
Proof.
  intro H. unfold competitorOf, competitorSection.
  rewrite (competitorBuilt_incomplete _ H). now destruct (negb _).
Qed.

Lemma applicationOf_incomplete (s : string) :
  applicationComplete (applicationFields s) = false -> applicationOf s = [].
Proof.
  intro H. unfold applicationOf, applicationSection.
  rewrite (applicationBuilt_incomplete _ H). now destruct (negb _).
Qed.

Lemma personaOf_incomplete (customersText s : string) :
  personaComplete (personaFields s) = false -> personaOf customersText s = [].
Proof.
  intro H. unfold personaOf, personaSection.
  rewrite (personaBuilt_incomplete _ _ H). now destruct (negb _).
Qed.

Lemma flat_map_drop (A : Type) (f : string -> list A)
  (pre post : list string) (s : string) :
  f s = [] -> flat_map f (pre ++ s :: post) = flat_map f (pre ++ post).
Proof.
  intro H. rewrite !flat_map_app. simpl. now rewrite H.
Qed.

End Invariant.

(** C1.  Every competitor, application and persona the parsers return has
    its four required fields non-empty; and a sub-record whose field mapping
    lacks a required field (undefined or empty) adds nothing: the output is
    the one the other sub-records give. *)
Theorem entities_complete (productName text customersText : string) :
  (forall c, In c (parseCompetitors text) ->
     Competitor.name c <> "" /\ Competitor.description c <> ""
     /\ Competitor.headquarters c <> "" /\ Competitor.revenue c <> "")
  /\ (forall a, In a (parseApplications text) ->
     Application.name a <> "" /\ Application.description a <> ""
     /\ Application.marketSize a <> "" /\ Application.growthRate a <> "")
  /\ (forall p, In p (parseCustomerPersonas productName text customersText) ->
     CustomerPersona.name p <> "" /\ CustomerPersona.description p <> ""
     /\ CustomerPersona.caresMostAbout p <> ""
     /\ CustomerPersona.caresLeastAbout p <> "")
  /\ (forall pre section post,
     split_marker text = (pre ++ section :: post)%list ->
     competitorComplete (competitorFields section) = false ->
     parseCompetitors text = collectCompetitors (pre ++ post))
  /\ (forall pre section post,
     split_marker text = (pre ++ section :: post)%list ->
     applicationComplete (applicationFields section) = false ->
     parseApplications text = collectApplications (pre ++ post))
  /\ (forall pre section post,
     split_marker text = (pre ++ section :: post)%list ->
     personaComplete (personaFields section) = false ->
     parseCustomerPersonas productName text customersText
     = map (withEmails productName) (collectPersonas customersText (pre ++ post))).
Proof.
  repeat split.
  1-4: unfold parseCompetitors in H; rewrite collectCompetitors_flat in H;
       apply in_flat_map in H; destruct H as [s [_ H]];
       apply competitorOf_In in H; destruct H as [_ H];
       apply competitorBuilt_Some in H; apply truthy_true; tauto.
  1-4: unfold parseApplications in H; rewrite collectApplications_flat in H;
       apply in_flat_map in H; destruct H as [s [_ H]];
       apply applicationOf_In in H; destruct H as [_ H];
       apply applicationBuilt_Some in H; apply truthy_true; tauto.
  1-4: apply parseCustomerPersonas_In in H;
       destruct H as [q [s [-> [_ [_ H]]]]];
       apply personaBuilt_Some in H; apply truthy_true; simpl; tauto.
  - intros pre section post Hs Hc. unfold parseCompetitors.
    rewrite Hs, !collectCompetitors_flat.
    apply flat_map_drop, competitorOf_incomplete, Hc.
  - intros pre section post Hs Hc. unfold parseApplications.
    rewrite Hs, !collectApplications_flat.
    apply flat_map_drop, applicationOf_incomplete, Hc.
  - intros pre section post Hs Hc. unfold parseCustomerPersonas.
    rewrite Hs, !collectPersonas_flat. f_equal.
    apply flat_map_drop, personaOf_incomplete, Hc.
Qed.

(** The spec's example: of two competitor blocks, the one without
    "Headquarters:" is dropped and the complete one is kept. *)
Lemma entities_complete_witness :
  Competitor.revenue (Competitor.mk "Acme" "Anvils" "Tucson" "$10B") <> ""
  /\ parseCompetitors "1. Name: Acme
Description: Anvils
Headquarters: Tucson
Revenue: $10B
2. Name: Globex
Description: Domination
Revenue: $1B"
     = collectCompetitors ["";
         "Name: Acme
Description: Anvils
Headquarters: Tucson
Revenue: $10B
"].
Proof.
  pose proof (entities_complete "" "1. Name: Acme
Description: Anvils
Headquarters: Tucson
Revenue: $10B
2. Name: Globex
Description: Domination
Revenue: $1B" "") as [H1 [_ [_ [H4 _]]]].
  split.
  - apply (H1 (Competitor.mk "Acme" "Anvils" "Tucson" "$10B")).
    vm_compute. left. reflexivity.
  - apply (H4 [""; "Name: Acme
Description: Anvils
Headquarters: Tucson
Revenue: $10B
"] "Name: Globex
Description: Domination
Revenue: $1B" []); reflexivity.
Defined.

(** A fragment that begins with a marker gives at most as many entities
    as it has markers: its first piece is empty. *)
Lemma marked_fragment_bound (productName text customersText : string) :
  marker_at text = true ->
  List.length (parseCompetitors text) <= count_markers text
  /\ List.length (parseApplications text) <= count_markers text
  /\ List.length (parseCustomerPersonas productName text customersText)
     <= count_markers text.
Proof.
  unfold marker_at. destruct (match_marker text) as [rest|] eqn:E; [|discriminate].
  intros _.
  pose proof (split_marker_length rest) as L.
  rewrite (count_markers_match _ _ E).
  unfold parseCompetitors, parseApplications, parseCustomerPersonas.
  rewrite length_map, collectCompetitors_flat, collectApplications_flat,
    collectPersonas_flat, (split_marker_match _ _ E).
  cbn [flat_map].
  change (competitorOf "") with (@nil Competitor.t).
  change (applicationOf "") with (@nil Application.t).
  change (personaOf customersText "") with (@nil CustomerPersona.t).
  cbn [app].
  pose proof (flat_map_at_most_one _ competitorOf (split_marker rest)
                competitorOf_length).
  pose proof (flat_map_at_most_one _ applicationOf (split_marker rest)
                applicationOf_length).
  pose proof (flat_map_at_most_one _ (personaOf customersText) (split_marker rest)
                (personaOf_length customersText)).
  lia.
Qed.


(** * The section splitter *)

Section SplitterFacts.

Lemma prefix_app (t s : string) :
  String.prefix t s = true <-> exists b, s = t ++ b.
Proof.
  revert s. induction t as [|c t IH]; intro s.
  - split; [intros _; now exists s | intros _; now destruct s].
  - destruct s as [|d s]; simpl;
      [split; [discriminate | intros [b H]; discriminate]|].
    destruct (ascii_dec c d) as [->|N].
    + rewrite IH. split; intros [b H]; exists b; [now rewrite H | now injection H].
    + split; [discriminate|]. intros [b H]. injection H as <- _. contradiction.
Qed.

Lemma includes_iff (s t : string) :
  includes s t = true <-> exists a b, s = a ++ t ++ b.
Proof.
  induction s as [|c s IH]; cbn [includes].
  - rewrite orb_false_r, prefix_app. split.
    + intros [b H]. now exists EmptyString, b.
    + intros [a [b H]]. destruct a; [now exists b | discriminate].
  - rewrite orb_true_iff, prefix_app, IH. split.
    + intros [[b H]|[a [b H]]].
      * now exists EmptyString, b.
      * exists (String c a), b. simpl. now rewrite H.
    + intros [a [b H]]. destruct a as [|d a].
      * left. now exists b.
      * right. simpl in H. injection H as _ H. now exists a, b.
Qed.

(** A text that lacks [t] has no part that includes it. *)
Lemma includes_part (a p b t : string) :
  includes (a ++ p ++ b) t = false -> includes p t = false.
Proof.
  intro H. destruct (includes p t) eqn:E; [|reflexivity].
  apply includes_iff in E. destruct E as [x [y ->]].
  assert (includes (a ++ (x ++ t ++ y) ++ b) t = true) as C; [|congruence].
  apply includes_iff. exists (a ++ x), (y ++ b).
  now rewrite !app_assoc.
Qed.

Lemma concat_cons_head (c : ascii) (l : list string) :
  String.concat "" (cons_head c l) = String c (String.concat "" l).
Proof. destruct l as [|p [|q l]]; reflexivity. Qed.

Lemma concat_cons (p : string) (l : list string) :
  String.concat "" (p :: l) = p ++ String.concat "" l.
Proof. destruct l; simpl; [now rewrite app_empty_r | reflexivity]. Qed.

(** The look-ahead consumes nothing: the pieces put together are the text. *)
Lemma lookahead_cuts_concat (at_pos : string -> bool) (s : string) :
  String.concat "" (lookahead_cuts at_pos s) = s.
Proof.
  induction s as [|c s IH]; [reflexivity|].
  cbn [lookahead_cuts]. cbv zeta.
  destruct (at_pos (String c s)).
  - rewrite concat_cons, concat_cons_head, IH. reflexivity.
  - rewrite concat_cons_head, IH. reflexivity.
Qed.

Lemma split_lookahead_concat (at_pos : string -> bool) (s : string) :
  String.concat "" (split_lookahead at_pos s) = s.
Proof.
  destruct s as [|c s]; [reflexivity|].
  unfold split_lookahead. now rewrite concat_cons_head, lookahead_cuts_concat.
Qed.

Lemma concat_part (l : list string) (p : string) :
  In p l -> exists a b, String.concat "" l = a ++ p ++ b.
Proof.
  induction l as [|q l IH]; [contradiction|].
  rewrite concat_cons. intros [->|H].
  - now exists EmptyString, (String.concat "" l).
  - destruct (IH H) as [a [b ->]]. exists (q ++ a), b. now rewrite app_assoc.
Qed.

Lemma split_lookahead_part (at_pos : string -> bool) (s p : string) :
  In p (split_lookahead at_pos s) -> exists a b, s = a ++ p ++ b.
Proof.
  intro H. apply concat_part in H. now rewrite split_lookahead_concat in H.
Qed.

(** A fragment variable keeps its value over pieces that lack its title. *)
Lemma classify_competitors (l : list string) (acc : Fragments) :
  (forall p, In p l -> includes p "Competitors:" = false) ->
  competitorsSection (fold_left classify l acc) = competitorsSection acc.
Proof.
  revert acc. induction l as [|p l IH]; intros acc H; [reflexivity|].
  simpl. rewrite IH by (intros q Hq; apply H; now right).
  unfold classify. destruct acc as [c a q k].
  rewrite (H p) by now left.
  repeat match goal with |- context [if ?b then _ else _] => destruct b end;
    reflexivity.
Qed.

Lemma classify_applications (l : list string) (acc : Fragments) :
  (forall p, In p l -> includes p "Product Applications:" = false) ->
  applicationsSection (fold_left classify l acc) = applicationsSection acc.
Proof.
  revert acc. induction l as [|p l IH]; intros acc H; [reflexivity|].
  simpl. rewrite IH by (intros q Hq; apply H; now right).
  unfold classify. destruct acc as [c a q k].
  rewrite (H p) by now left.
  repeat match goal with |- context [if ?b then _ else _] => destruct b end;
    reflexivity.
Qed.

Lemma classify_personas (l : list string) (acc : Fragments) :
  (forall p, In p l -> includes p "Customer Personas:" = false) ->
  personasSection (fold_left classify l acc) = personasSection acc.
Proof.
  revert acc. induction l as [|p l IH]; intros acc H; [reflexivity|].
  simpl. rewrite IH by (intros q Hq; apply H; now right).
  unfold classify. destruct acc as [c a q k].
  rewrite (H p) by now left.
  repeat match goal with |- context [if ?b then _ else _] => destruct b end;
    reflexivity.
Qed.

Lemma classify_customers (l : list string) (acc : Fragments) :
  (forall p, In p l -> includes p "Potential Customers:" = false) ->
  customersSection (fold_left classify l acc) = customersSection acc.
Proof.
  revert acc. induction l as [|p l IH]; intros acc H; [reflexivity|].
  simpl. rewrite IH by (intros q Hq; apply H; now right).
  unfold classify. destruct acc as [c a q k].
  rewrite (H p) by now left.
  repeat match goal with |- context [if ?b then _ else _] => destruct b end;
    reflexivity.
Qed.

Lemma pieces_lack (response t : string) :
  includes response t = false ->
  forall p, In p (split_lookahead heading_at response) -> includes p t = false.
Proof.
  intros H p Hp. apply split_lookahead_part in Hp.
  destruct Hp as [a [b ->]]. now apply includes_part in H.
Qed.

End SplitterFacts.

(** C7.  When the response lacks a section title, the fragment of that
    section is the empty string and the list parsed from it is empty; each
    parser returns the empty list on the empty fragment. *)
Theorem absent_title_empty_list (productName response : string) :
  (includes response "Competitors:" = false ->
     competitorsSection (sectionFragments response) = ""
     /\ competitors (analyzeResponse productName response) = [])
  /\ (includes response "Product Applications:" = false ->
     applicationsSection (sectionFragments response) = ""
     /\ applications (analyzeResponse productName response) = [])
  /\ (includes response "Customer Personas:" = false ->
     personasSection (sectionFragments response) = ""
     /\ customerPersonas (analyzeResponse productName response) = [])
  /\ (includes response "Potential Customers:" = false ->
     customersSection (sectionFragments response) = "")
  /\ parseCompetitors "" = []
  /\ parseApplications "" = []
  /\ (forall customersText, parseCustomerPersonas productName "" customersText = []).
Proof.
  unfold analyzeResponse, sectionFragments. cbn [competitors applications customerPersonas].
  split; [|split; [|split; [|split; [|split; [|split]]]]].
  - intro H. rewrite (classify_competitors _ _ (pieces_lack _ _ H)).
    split; reflexivity.
  - intro H. rewrite (classify_applications _ _ (pieces_lack _ _ H)).
    split; reflexivity.
  - intro H. rewrite (classify_personas _ _ (pieces_lack _ _ H)).
    split; reflexivity.
  - intro H. apply classify_customers, pieces_lack, H.
  - reflexivity.
  - reflexivity.
  - intro customersText. reflexivity.
Qed.

(** A response with only a personas section. *)
Lemma absent_title_empty_list_witness :
  competitorsSection (sectionFragments "3. Customer Personas:
1. Name: Buyer") = ""
  /\ competitors (analyzeResponse "Widget" "3. Customer Personas:
1. Name: Buyer") = [].
Proof.
  apply (proj1 (absent_title_empty_list "Widget" "3. Customer Personas:
1. Name: Buyer")).
  vm_compute. reflexivity.
Defined.

(** * The field mapping of a sub-record *)

Section LastWins.

Lemma last_map_Some (vs : list string) :
  last (map Some vs) None =
  match vs with
  | [] => None
  | _ :: _ => Some (last vs EmptyString)
  end.
Proof.
  induction vs as [|v vs IH]; [reflexivity|].
  destruct vs as [|w vs]; [reflexivity|].
  change (last (map Some (v :: w :: vs)) None) with (last (map Some (w :: vs)) None).
  rewrite IH. reflexivity.
Qed.

Lemma lastValue_cons (label line : string) (lines : list string) :
  lastValue label (line :: lines) =
  match lastValue label lines with
  | Some v => Some v
  | None => if labelled label line then Some (snd (keyValue line)) else None
  end.
Proof.
  unfold lastValue, valuesOf. cbn [filter].
  destruct (labelled label line); [|now destruct (last _ _)].
  cbn [map].
  destruct (map _ (filter (labelled label) lines)) as [|w vs]; [reflexivity|].
  change (last (Some (snd (keyValue line)) :: map Some (w :: vs)) None)
    with (last (map Some (w :: vs)) None).
  rewrite last_map_Some. reflexivity.
Qed.

Variable A : Type.
Variable step : A -> string -> A.
Variable proj : A -> option string.
Variable label : string.

Hypothesis step_proj : forall p line,
  proj (step p line)
  = if labelled label line then Some (snd (keyValue line)) else proj p.

(** A field that each labelled line overwrites holds, after the loop, the
    value of the last labelled line. *)
Lemma fold_lastValue (lines : list string) (init : A) :
  proj (fold_left step lines init) =
  match lastValue label lines with
  | Some v => Some v
  | None => proj init
  end.
Proof.
  revert init. induction lines as [|line lines IH]; intro init; [reflexivity|].
  cbn [fold_left]. rewrite IH, lastValue_cons, step_proj.
  destruct (lastValue label lines); [reflexivity|].
  destruct (labelled label line); reflexivity.
Qed.

End LastWins.

(** The [switch] of the three parsers, branch by branch. *)
Ltac switch_cases :=
  repeat match goal with
  | |- context [String.eqb ?k (String ?c ?s)] =>
      is_var k; destruct (String.eqb_spec k (String c s)) as [->|?]; cbn
  end;
  try reflexivity; try congruence.

Ltac line_field step :=
  let key := fresh "key" in
  let value := fresh "value" in
  let k := fresh "k" in
  let p := fresh "p" in
  let line := fresh "line" in
  intros p line; destruct p;
  unfold step, labelled;
  destruct (keyValue line) as [key value]; cbn [snd];
  destruct (skipped key value); cbn; [reflexivity|];
  generalize (toLowerCase key); intro k;
  switch_cases.

Section FieldSteps.

Lemma competitorLine_name : forall p line,
  PartialCompetitor.name (competitorLine p line)
  = if labelled "name" line then Some (snd (keyValue line))
    else PartialCompetitor.name p.
Proof. line_field competitorLine. Qed.

Lemma competitorLine_description : forall p line,
  PartialCompetitor.description (competitorLine p line)
  = if labelled "description" line then Some (snd (keyValue line))
    else PartialCompetitor.description p.
Proof. line_field competitorLine. Qed.

Lemma competitorLine_headquarters : forall p line,
  PartialCompetitor.headquarters (competitorLine p line)
  = if labelled "headquarters" line then Some (snd (keyValue line))
    else PartialCompetitor.headquarters p.
Proof. line_field competitorLine. Qed.

Lemma competitorLine_revenue : forall p line,
  PartialCompetitor.revenue (competitorLine p line)
  = if labelled "revenue" line then Some (snd (keyValue line))
    else PartialCompetitor.revenue p.
Proof. line_field competitorLine. Qed.

Lemma applicationLine_name : forall p line,
  PartialApplication.name (applicationLine p line)
  = if labelled "name" line then Some (snd (keyValue line))
    else PartialApplication.name p.
Proof. line_field applicationLine. Qed.

Lemma applicationLine_description : forall p line,
  PartialApplication.description (applicationLine p line)
  = if labelled "description" line then Some (snd (keyValue line))
    else PartialApplication.description p.
Proof. line_field applicationLine. Qed.

Lemma applicationLine_marketSize : forall p line,
  PartialApplication.marketSize (applicationLine p line)
  = if labelled "market size" line then Some (snd (keyValue line))
    else PartialApplication.marketSize p.
Proof. line_field applicationLine. Qed.

Lemma applicationLine_growthRate : forall p line,
  PartialApplication.growthRate (applicationLine p line)
  = if labelled "growth rate" line then Some (snd (keyValue line))
    else PartialApplication.growthRate p.
Proof. line_field applicationLine. Qed.

Lemma personaLine_name : forall p line,
  PartialPersona.name (personaLine p line)
  = if labelled "name" line then Some (snd (keyValue line))
    else PartialPersona.name p.
Proof. line_field personaLine. Qed.

Lemma personaLine_description : forall p line,
  PartialPersona.description (personaLine p line)
  = if labelled "description" line then Some (snd (keyValue line))
    else PartialPersona.description p.
Proof. line_field personaLine. Qed.

Lemma personaLine_caresMostAbout : forall p line,
  PartialPersona.caresMostAbout (personaLine p line)
  = if labelled "cares most about" line then Some (snd (keyValue line))
    else PartialPersona.caresMostAbout p.
Proof. line_field personaLine. Qed.

Lemma personaLine_caresLeastAbout : forall p line,
  PartialPersona.caresLeastAbout (personaLine p line)
  = if labelled "cares least about" line then Some (snd (keyValue line))
    else PartialPersona.caresLeastAbout p.
Proof. line_field personaLine. Qed.

End FieldSteps.

Section FieldValues.

Lemma lastValue_or_none (o : option string) :
  match o with Some v => Some v | None => None end = o.
Proof. now destruct o. Qed.

Lemma competitorFields_last (section : string) :
  let lines := split_char LF section in
  let f := competitorFields section in
  PartialCompetitor.name f = lastValue "name" lines
  /\ PartialCompetitor.description f = lastValue "description" lines
  /\ PartialCompetitor.headquarters f = lastValue "headquarters" lines
  /\ PartialCompetitor.revenue f = lastValue "revenue" lines.
Proof.
  cbv zeta. unfold competitorFields.
  rewrite (fold_lastValue _ _ _ _ competitorLine_name),
    (fold_lastValue _ _ _ _ competitorLine_description),
    (fold_lastValue _ _ _ _ competitorLine_headquarters),
    (fold_lastValue _ _ _ _ competitorLine_revenue).
  cbn. now rewrite !lastValue_or_none.
Qed.

Lemma applicationFields_last (section : string) :
  let lines := split_char LF section in
  let f := applicationFields section in
  PartialApplication.name f = lastValue "name" lines
  /\ PartialApplication.description f = lastValue "description" lines
  /\ PartialApplication.marketSize f = lastValue "market size" lines
  /\ PartialApplication.growthRate f = lastValue "growth rate" lines.
Proof.
  cbv zeta. unfold applicationFields.
  rewrite (fold_lastValue _ _ _ _ applicationLine_name),
    (fold_lastValue _ _ _ _ applicationLine_description),
    (fold_lastValue _ _ _ _ applicationLine_marketSize),
    (fold_lastValue _ _ _ _ applicationLine_growthRate).
  cbn. now rewrite !lastValue_or_none.
Qed.

Lemma personaFields_last (section : string) :
  let lines := split_char LF section in
  let f := personaFields section in
  PartialPersona.name f = lastValue "name" lines
  /\ PartialPersona.description f = lastValue "description" lines
  /\ PartialPersona.caresMostAbout f = lastValue "cares most about" lines
  /\ PartialPersona.caresLeastAbout f = lastValue "cares least about" lines.
Proof.
  cbv zeta. unfold personaFields.
  rewrite (fold_lastValue _ _ _ _ personaLine_name),
    (fold_lastValue _ _ _ _ personaLine_description),
    (fold_lastValue _ _ _ _ personaLine_caresMostAbout),
    (fold_lastValue _ _ _ _ personaLine_caresLeastAbout).
  cbn. now rewrite !lastValue_or_none.
Qed.

End FieldValues.


(** * The customer cross-referencer *)

Section CrossReference.

Lemma or_empty_id (x : string) : or_empty x = x.
Proof. unfold or_empty, truthy. now destruct x. Qed.

Lemma length_pos_truthy (x : string) : (0 <? String.length x) = truthy x.
Proof. now destruct x. Qed.

(** The chain of [filter], [map] and [filter] of the code is the
    cross-reference of the specification. *)
Lemma relevantCustomers_crossReference (name customersText : string) :
  relevantCustomers name customersText = crossReference name customersText.
Proof.
  unfold relevantCustomers, crossReference, crossReferenceLines.
  rewrite or_empty_id.
  rewrite (filter_ext _ truthy length_pos_truthy).
  f_equal. apply map_ext. intro line.
  unfold customerLabel. now rewrite split_char_head.
Qed.

Lemma crossReferenceLines_app (name : string) (l1 l2 : list string) :
  crossReferenceLines name (l1 ++ l2)
  = (crossReferenceLines name l1 ++ crossReferenceLines name l2)%list.
Proof.
  unfold crossReferenceLines. now rewrite filter_app, map_app, filter_app.
Qed.

Lemma crossReferenceLines_none (name : string) (lines : list string) :
  (forall line, In line lines -> relevant name line = false) ->
  crossReferenceLines name lines = [].
Proof.
  intro H. unfold crossReferenceLines.
  induction lines as [|l lines IH]; [reflexivity|].
  cbn [filter]. rewrite (H l) by now left.
  apply IH. intros line Hl. apply H. now right.
Qed.

Lemma potentialCustomers_output (productName text customersText : string)
  (p : CustomerPersona.t) :
  In p (parseCustomerPersonas productName text customersText) ->
  CustomerPersona.potentialCustomers p
  = crossReference (CustomerPersona.name p) customersText.
Proof.
  intro H. apply parseCustomerPersonas_In in H.
  destruct H as [q [s [-> [_ [_ H]]]]].
  apply personaBuilt_Some in H. cbn.
  rewrite <- relevantCustomers_crossReference. tauto.
Qed.

End CrossReference.

(** C5.  The potential customers of a persona of the output are the
    cross-reference of its name: the non-empty trimmed texts before the
    first "-" of the customers lines whose lower-cased text includes the
    lower-cased name, in line order, duplicates kept.  A persona without
    relevant line gets the empty list, and one line can attach to two
    personas. *)
Theorem potentialCustomers_cross_reference :
  (forall productName text customersText p,
     In p (parseCustomerPersonas productName text customersText) ->
     CustomerPersona.potentialCustomers p
     = crossReference (CustomerPersona.name p) customersText)
  /\ (forall productName text customersText p,
     In p (parseCustomerPersonas productName text customersText) ->
     (forall line, In line (split_char LF customersText) ->
        relevant (CustomerPersona.name p) line = false) ->
     CustomerPersona.potentialCustomers p = [])
  /\ (exists productName text customersText p q label,
     In p (parseCustomerPersonas productName text customersText)
     /\ In q (parseCustomerPersonas productName text customersText)
     /\ CustomerPersona.name p <> CustomerPersona.name q
     /\ In label (CustomerPersona.potentialCustomers p)
     /\ In label (CustomerPersona.potentialCustomers q)).
Proof.
  split; [|split].
  - apply potentialCustomers_output.
  - intros productName text customersText p Hp Hn.
    rewrite (potentialCustomers_output _ _ _ _ Hp).
    now apply crossReferenceLines_none.
  - pose (text := "1. Name: Manager
Description: d
Cares Most About: m
Cares Least About: l
2. Name: IT Manager
Description: d
Cares Most About: m
Cares Least About: l").
    pose (out := parseCustomerPersonas "W" text "IT Manager at Initech - fit").
    exists "W", text, "IT Manager at Initech - fit",
      (nth 0 out (CustomerPersona.mk "" "" "" "" [] None None)),
      (nth 1 out (CustomerPersona.mk "" "" "" "" [] None None)),
      "IT Manager at Initech".
    vm_compute. repeat split; auto; discriminate.
Qed.

Lemma potentialCustomers_cross_reference_witness :
  CustomerPersona.potentialCustomers
    (nth 0 (customerPersonas (analyzeResponse "Widget" sample_response))
       (CustomerPersona.mk "" "" "" "" [] None None))
  = crossReference "VP of Sales" "4. Potential Customers:

1. VP of Sales at Acme - fits well
2. Random line".
Proof.
  apply (proj1 potentialCustomers_cross_reference "Widget"
           (personasSection (sectionFragments sample_response))
           (customersSection (sectionFragments sample_response))).
  vm_compute. left. reflexivity.
Defined.

(** C10.  A relevant customers line without "-" gives its whole trimmed
    text as label, at the line's place in the sequence. *)
Theorem dashless_line_label (productName text customersText : string)
  (p : CustomerPersona.t) (pre post : list string) (line : string) :
  In p (parseCustomerPersonas productName text customersText) ->
  split_char LF customersText = (pre ++ line :: post)%list ->
  relevant (CustomerPersona.name p) line = true ->
  has_char "-"%char line = false ->
  trim line <> "" ->
  CustomerPersona.potentialCustomers p
  = (crossReferenceLines (CustomerPersona.name p) pre
     ++ trim line :: crossReferenceLines (CustomerPersona.name p) post)%list.
Proof.
  intros Hp Hs Hr Hd Ht.
  rewrite (potentialCustomers_output _ _ _ _ Hp).
  unfold crossReference. rewrite Hs, crossReferenceLines_app. f_equal.
  change (line :: post) with ([line] ++ post)%list.
  rewrite crossReferenceLines_app. cbn [app].
  unfold crossReferenceLines at 1. cbn [filter map]. rewrite Hr. cbn [filter map].
  unfold customerLabel. rewrite (before_first_none _ _ Hd).
  apply truthy_true in Ht. rewrite Ht. reflexivity.
Qed.

Lemma dashless_line_label_witness :
  CustomerPersona.potentialCustomers
    (withEmails "W"
       (CustomerPersona.mk "Buyer" "d" "m" "l" ["Head buyer at Initech"] None None))
  = (crossReferenceLines "Buyer" ["first"]
     ++ trim " Head buyer at Initech " :: crossReferenceLines "Buyer" ["last"])%list.
Proof.
  apply (dashless_line_label "W" "Name: Buyer
Description: d
Cares Most About: m
Cares Least About: l" "first
 Head buyer at Initech 
last"
    (withEmails "W"
       (CustomerPersona.mk "Buyer" "d" "m" "l" ["Head buyer at Initech"] None None))
    ["first"] ["last"] " Head buyer at Initech ").
  - vm_compute. left. reflexivity.
  - reflexivity.
  - reflexivity.
  - reflexivity.
  - vm_compute. discriminate.
Defined.

(** * The template renderer *)

Section Templates.

Lemma generateSalesEmail_template (persona : CustomerPersona.t) (productName : string) :
  generateSalesEmail persona productName
  = salesTemplate (CustomerPersona.name persona) productName
      (CustomerPersona.caresMostAbout persona)
      (CustomerPersona.caresLeastAbout persona)
      (before_first ","%char (CustomerPersona.caresMostAbout persona)).
Proof.
  unfold generateSalesEmail, salesTemplate. now rewrite split_char_head.
Qed.

Lemma generateDiscoveryEmail_template (persona : CustomerPersona.t)
  (productName : string) :
  generateDiscoveryEmail persona productName
  = discoveryTemplate (CustomerPersona.name persona)
      (CustomerPersona.caresMostAbout persona).
Proof. reflexivity. Qed.

Lemma before_first_app (sep : ascii) (a b : string) :
  before_first sep (a ++ b)
  = if has_char sep a then before_first sep a else a ++ before_first sep b.
Proof.
  induction a as [|c a IH]; [reflexivity|].
  cbn [append before_first has_char].
  destruct (Ascii.eqb c sep); [reflexivity|].
  cbn [orb]. rewrite IH. now destruct (has_char sep a).
Qed.

(** The subject line of the discovery e-mail is made of the name alone. *)
Lemma discovery_subject (name most : string) :
  subjectLine (discoveryTemplate name most)
  = "Subject: Quick question about your "
    ++ (if has_char LF name then before_first LF name else name ++ " challenges").
Proof.
  unfold subjectLine, discoveryTemplate.
  rewrite before_first_app. cbn [has_char Ascii.eqb Bool.eqb orb LF].
  f_equal. rewrite before_first_app.
  destruct (has_char LF name); [reflexivity|]. reflexivity.
Qed.

End Templates.

(** C6.  The two renderers are functions of the persona's name, its two
    "cares" fields and the product name: equal inputs give equal texts,
    whatever the other fields hold; and the subject line of the discovery
    e-mail is the same for two personas of the same name, so a change of
    caresLeastAbout leaves it as it is. *)
Theorem templates_deterministic (p q : CustomerPersona.t)
  (productName productName' : string) :
  (productName = productName' ->
   CustomerPersona.name p = CustomerPersona.name q ->
   CustomerPersona.caresMostAbout p = CustomerPersona.caresMostAbout q ->
   CustomerPersona.caresLeastAbout p = CustomerPersona.caresLeastAbout q ->
   generateSalesEmail p productName = generateSalesEmail q productName'
   /\ generateDiscoveryEmail p productName = generateDiscoveryEmail q productName')
  /\ (CustomerPersona.name p = CustomerPersona.name q ->
      subjectLine (generateDiscoveryEmail p productName)
      = subjectLine (generateDiscoveryEmail q productName')).
Proof.
  split.
  - intros -> Hn Hm Hl.
    rewrite !generateSalesEmail_template, !generateDiscoveryEmail_template.
    now rewrite Hn, Hm, Hl.
  - intro Hn. rewrite !generateDiscoveryEmail_template, !discovery_subject.
    now rewrite Hn.
Qed.

(** Two personas that differ in caresLeastAbout only. *)
Lemma templates_deterministic_witness :
  subjectLine (generateDiscoveryEmail
     (CustomerPersona.mk "Buyer" "d" "price, speed" "colour" [] None None) "Widget")
  = subjectLine (generateDiscoveryEmail
     (CustomerPersona.mk "Buyer" "d" "price, speed" "packaging" [] None None) "Widget")
  /\ generateSalesEmail
       (CustomerPersona.mk "Buyer" "d" "price, speed" "colour" [] None None) "Widget"
     = generateSalesEmail
       (CustomerPersona.mk "Buyer" "other" "price, speed" "colour" ["x"] None None) "Widget".
Proof.
  split.
  - apply (proj2 (templates_deterministic
       (CustomerPersona.mk "Buyer" "d" "price, speed" "colour" [] None None)
       (CustomerPersona.mk "Buyer" "d" "price, speed" "packaging" [] None None)
       "Widget" "Widget")).
    reflexivity.
  - apply (proj1 (templates_deterministic
       (CustomerPersona.mk "Buyer" "d" "price, speed" "colour" [] None None)
       (CustomerPersona.mk "Buyer" "other" "price, speed" "colour" ["x"] None None)
       "Widget" "Widget")); reflexivity.
Defined.

(** C8.  The texts of the two e-mails are the fixed prose around the
    name, the product name, caresMostAbout, caresLeastAbout and the first
    comma-delimited segment of caresMostAbout; that segment is the text
    before the first comma, and all of caresMostAbout when it has none. *)
Theorem template_substitutions (persona : CustomerPersona.t) (productName : string) :
  generateSalesEmail persona productName
  = salesTemplate (CustomerPersona.name persona) productName
      (CustomerPersona.caresMostAbout persona)
      (CustomerPersona.caresLeastAbout persona)
      (nth 0 (split_char ","%char (CustomerPersona.caresMostAbout persona)) "")
  /\ generateDiscoveryEmail persona productName
     = discoveryTemplate (CustomerPersona.name persona)
         (CustomerPersona.caresMostAbout persona)
  /\ nth 0 (split_char ","%char (CustomerPersona.caresMostAbout persona)) ""
     = before_first ","%char (CustomerPersona.caresMostAbout persona)
  /\ (has_char ","%char (CustomerPersona.caresMostAbout persona) = false ->
      nth 0 (split_char ","%char (CustomerPersona.caresMostAbout persona)) ""
      = CustomerPersona.caresMostAbout persona).
Proof.
  split; [reflexivity|]. split; [reflexivity|]. split.
  - apply split_char_head.
  - intro H. rewrite split_char_head. now apply before_first_none.
Qed.

Lemma template_substitutions_witness :
  nth 0 (split_char ","%char "pipeline growth") "" = "pipeline growth".
Proof.
  apply (proj2 (proj2 (proj2 (template_substitutions
    (CustomerPersona.mk "VP of Sales" "d" "pipeline growth" "details" [] None None)
    "Widget")))).
  reflexivity.
Defined.

(** * The line parser *)

Section LineParser.

Lemma keyValue_parts (line : string) :
  keyValue line
  = (trim (before_first ":"%char line),
     match after_first ":"%char line with
     | Some v => trim (join ":" (map trim (split_char ":"%char v)))
     | None => EmptyString
     end).
Proof.
  unfold keyValue. rewrite split_char_cons. cbn [map].
  destruct (after_first ":"%char line); reflexivity.
Qed.

End LineParser.

(** C2.  The line of the specification, run through the line parser: the
    key is "Revenue", which the parser matches as "revenue", and the split
    is on the first colon, but the value comes out as "$10B (2023:est.)".
    The parts after the first colon are trimmed one by one before they are
    joined again, so the space behind the later colon is lost and the value
    is not the text "$10B (2023: est.)" that the claim states. *)
Lemma keyValue_not_verbatim :
  keyValue "Revenue: $10B (2023: est.)" = ("Revenue", "$10B (2023:est.)")
  /\ labelled "revenue" "Revenue: $10B (2023: est.)" = true
  /\ snd (keyValue "Revenue: $10B (2023: est.)") <> "$10B (2023: est.)"
  /\ snd (keyValue "Revenue: $10B (2023: est.)")
     <> trim (join ":" (tl (split_char ":"%char "Revenue: $10B (2023: est.)"))).
Proof.
  split; [reflexivity|]. split; [reflexivity|].
  split; vm_compute; discriminate.
Qed.

(** * The record split *)

(** C3, as the specification states it, fails: the split consumes the
    marker, the fragments do not begin with it, and the result differs from
    the look-ahead split. *)
Lemma split_marker_drops_marker :
  split_marker "1. Name: Acme
Revenue: $1B
2. Name: Globex"
  = [""; "Name: Acme
Revenue: $1B
"; "Name: Globex"]
  /\ split_marker_lookahead "1. Name: Acme
Revenue: $1B
2. Name: Globex"
     = ["1. Name: Acme
Revenue: $1B
"; "2. Name: Globex"]
  /\ ~ (forall s, split_marker s = split_marker_lookahead s)
  /\ ~ (forall s p, In p (split_marker s) -> p <> "" -> marker_at p = true).
Proof.
  split; [vm_compute; reflexivity|]. split; [vm_compute; reflexivity|]. split.
  - intro H. specialize (H "1. Name: Acme"). vm_compute in H. discriminate.
  - intro H. specialize (H "1. Name: Acme" "Name: Acme").
    assert (marker_at "Name: Acme" = true) as C.
    { apply H; [vm_compute; auto | discriminate]. }
    vm_compute in C. discriminate.
Qed.


(** * Scenarios of the specification *)

(** Whatever the text, the entities are at most one per piece of the
    split, that is, at most one more than the markers. *)
Lemma entities_at_most_pieces (text : string) :
  List.length (parseCompetitors text) <= S (count_markers text)
  /\ List.length (parseApplications text) <= S (count_markers text).
Proof.
  rewrite <- split_marker_length.
  unfold parseCompetitors, parseApplications.
  rewrite collectCompetitors_flat, collectApplications_flat.
  split; apply flat_map_at_most_one;
    [apply competitorOf_length | apply applicationOf_length].
Qed.

(** Without a leading marker the bound by the markers alone is lost. *)
Example unnumbered_record :
  List.length (parseCompetitors "Name: Acme
Description: Anvils
Headquarters: Tucson
Revenue: $10B") = 1
  /\ count_markers "Name: Acme
Description: Anvils
Headquarters: Tucson
Revenue: $10B" = 0.
Proof. split; reflexivity. Qed.

(** Two competitors of which one lacks its headquarters, no applications
    section, one persona with one matching customers line. *)
Example end_to_end_scenario :
  let data := analyzeResponse "Widget" sample_response in
  map Competitor.name (competitors data) = ["Acme"]
  /\ applications data = []
  /\ map CustomerPersona.name (customerPersonas data) = ["VP of Sales"]
  /\ map CustomerPersona.potentialCustomers (customerPersonas data)
     = [["1. VP of Sales at Acme"]]
  /\ forallb (fun p => match CustomerPersona.salesEmail p,
                             CustomerPersona.discoveryEmail p with
                       | Some _, Some _ => true
                       | _, _ => false
                       end) (customerPersonas data) = true.
Proof. vm_compute. repeat split; reflexivity. Qed.

(** The customers lines of the specification's example: the first attaches
    to "VP of Sales" only, the second to no persona. *)
Example cross_reference_scenario :
  crossReferenceLines "VP of Sales" ["VP of Sales at Acme - fits well"; "Random line"]
  = ["VP of Sales at Acme"]
  /\ crossReferenceLines "IT Manager" ["VP of Sales at Acme - fits well"; "Random line"]
     = [].
Proof. split; reflexivity. Qed.

(** * Fragments of a response that begins with a heading *)

Section HeadedFragments.

Lemma digit_not_ws (c : ascii) : is_digit c = true -> is_ws c = false.
Proof.
  destruct c as [[] [] [] [] [] [] [] []]; vm_compute; congruence.
Qed.

Lemma heading_at_digit (c : ascii) (s : string) :
  heading_at (String c s) = true -> is_digit c = true.
Proof.
  unfold heading_at, match_marker. now destruct (is_digit c).
Qed.

Lemma dropWhile_app_all (f : ascii -> bool) (a b : string) :
  dropWhile f (a ++ b) = "" -> dropWhile f a = "" /\ dropWhile f b = "".
Proof.
  induction a as [|c a IH]; cbn [append dropWhile]; [auto|].
  destruct (f c); [exact IH | discriminate].
Qed.

(** A piece that runs from a heading to the next heading, or to the end,
    begins with a marker, unless it is made of digits only. *)
Lemma heading_piece (p t : string) :
  heading_at (p ++ t) = true ->
  t = "" \/ heading_at t = true ->
  marker_at p = true \/ dropWhile is_digit p = "".
Proof.
  intros H Ht. destruct p as [|d p]; [now right|].
  pose proof (heading_at_digit _ _ H) as D.
  destruct (dropWhile is_digit (String d p)) as [|x r] eqn:E; [now right|].
  left. unfold heading_at in H. unfold marker_at.
  destruct (match_marker (String d p ++ t)) as [rest|] eqn:M; [clear H|discriminate].
  unfold match_marker in M |- *.
  change (String d p ++ t) with (String d (p ++ t)) in M.
  cbv beta iota in M. rewrite D in M |- *.
  change (String d (p ++ t)) with (String d p ++ t) in M.
  rewrite (dropWhile_app _ _ t _ _ E) in M. rewrite E.
  cbn [append] in M.
  destruct (Ascii.eqb x "."%char); [|discriminate].
  destruct r as [|w r].
  - exfalso. cbn [append] in M. destruct Ht as [->|Ht]; [discriminate|].
    destruct t as [|w t]; [discriminate|].
    apply heading_at_digit, digit_not_ws in Ht. now rewrite Ht in M.
  - cbn [append] in M. now destruct (is_ws w).
Qed.

(** The pieces of the look-ahead scan: the first one ends at a cut or at
    the end of the text, the others also begin at a cut. *)
Lemma lookahead_cuts_pieces (at_pos : string -> bool) (s : string) :
  exists p0 rest,
    lookahead_cuts at_pos s = p0 :: rest
    /\ (exists t, s = p0 ++ t /\ (t = "" \/ at_pos t = true))
    /\ (forall p, In p rest ->
          exists t, at_pos (p ++ t) = true /\ (t = "" \/ at_pos t = true)).
Proof.
  induction s as [|c s IH].
  - exists EmptyString, []. split; [reflexivity|]. split.
    + exists EmptyString. auto.
    + intros p [].
  - destruct IH as [p0 [rest [E [[t [Hs Ht]] Hr]]]].
    cbn [lookahead_cuts]. cbv zeta. rewrite E. cbn [cons_head].
    destruct (at_pos (String c s)) eqn:A.
    + exists EmptyString, (String c p0 :: rest). split; [reflexivity|]. split.
      * exists (String c s). auto.
      * intros p [<-|Hp]; [|now apply Hr].
        exists t. cbn [append]. rewrite <- Hs. auto.
    + exists (String c p0), rest. split; [reflexivity|]. split.
      * exists t. cbn [append]. rewrite <- Hs. auto.
      * exact Hr.
Qed.

Lemma headed_pieces (response p : string) :
  heading_at response = true ->
  In p (split_lookahead heading_at response) ->
  marker_at p = true \/ dropWhile is_digit p = "".
Proof.
  intros H Hp. destruct response as [|c s]; [discriminate|].
  unfold split_lookahead in Hp.
  destruct (lookahead_cuts_pieces heading_at s) as [p0 [rest [E [[t [Hs Ht]] Hr]]]].
  rewrite E in Hp. cbn [cons_head] in Hp. destruct Hp as [<-|Hp].
  - apply (heading_piece _ t); [|exact Ht].
    cbn [append]. now rewrite <- Hs.
  - destruct (Hr p Hp) as [u [Hu Hu']]. now apply (heading_piece _ u).
Qed.

(** A piece of digits includes no section title. *)
Lemma digits_lack_title (p title : string) :
  dropWhile is_digit p = "" -> dropWhile is_digit title <> "" ->
  includes p title = false.
Proof.
  intros Hp Ht. destruct (includes p title) eqn:E; [|reflexivity].
  apply includes_iff in E. destruct E as [a [b ->]].
  apply dropWhile_app_all in Hp. destruct Hp as [_ Hp].
  apply dropWhile_app_all in Hp. tauto.
Qed.

Lemma classify_headed (l : list string) (acc : Fragments) :
  (forall p, In p l -> marker_at p = true \/ dropWhile is_digit p = "") ->
  headed (competitorsSection acc) /\ headed (applicationsSection acc)
  /\ headed (personasSection acc) ->
  let f := fold_left classify l acc in
  headed (competitorsSection f) /\ headed (applicationsSection f)
  /\ headed (personasSection f).
Proof.
  cbv zeta. revert acc. induction l as [|p l IH]; intros acc Hl Hacc; [exact Hacc|].
  cbn [fold_left]. apply IH; [intros q Hq; apply Hl; now right|].
  assert (forall title, dropWhile is_digit title <> "" ->
            includes p title = true -> headed p) as Hp.
  { intros title Ht Hi. destruct (Hl p (or_introl eq_refl)) as [M|D].
    - now right.
    - rewrite (digits_lack_title _ _ D Ht) in Hi. discriminate. }
  unfold classify. destruct acc as [c a q k]. cbn in Hacc.
  destruct (includes p "Competitors:") eqn:I1;
    [cbn; split; [apply (Hp "Competitors:"); [discriminate|exact I1] | tauto]|].
  destruct (includes p "Product Applications:") eqn:I2;
    [cbn; split; [tauto|split; [apply (Hp "Product Applications:");
       [discriminate|exact I2] | tauto]]|].
  destruct (includes p "Customer Personas:") eqn:I3;
    [cbn; split; [tauto|split; [tauto|apply (Hp "Customer Personas:");
       [discriminate|exact I3]]]|].
  destruct (includes p "Potential Customers:"); cbn; tauto.
Qed.

Lemma sectionFragments_headed (response : string) :
  heading_at response = true ->
  let f := sectionFragments response in
  headed (competitorsSection f) /\ headed (applicationsSection f)
  /\ headed (personasSection f).
Proof.
  intro H. apply classify_headed.
  - intros p Hp. now apply (headed_pieces response).
  - cbn. unfold headed. auto.
Qed.

End HeadedFragments.

(** C4.  A fragment that begins with a marker, as a fragment that starts
    at its section heading does, gives at most as many entities as it has
    markers.  So for a response that begins with a section heading each of
    the three lists is at most as long as the fragment it is parsed from
    has markers. *)
Theorem entities_at_most_markers (productName text customersText response : string) :
  (marker_at text = true ->
   List.length (parseCompetitors text) <= count_markers text
   /\ List.length (parseApplications text) <= count_markers text
   /\ List.length (parseCustomerPersonas productName text customersText)
      <= count_markers text)
  /\ (heading_at response = true ->
      let f := sectionFragments response in
      let data := analyzeResponse productName response in
      List.length (competitors data) <= count_markers (competitorsSection f)
      /\ List.length (applications data) <= count_markers (applicationsSection f)
      /\ List.length (customerPersonas data) <= count_markers (personasSection f)).
Proof.
  split; [apply marked_fragment_bound|].
  intro H. cbv zeta. unfold analyzeResponse.
  cbn [competitors applications customerPersonas].
  destruct (sectionFragments_headed response H) as [[Hc|Hc] [[Ha|Ha] [Hp|Hp]]];
    repeat split;
    try (rewrite Hc; cbn; lia); try (rewrite Ha; cbn; lia);
    try (rewrite Hp; cbn; lia);
    try (apply (marked_fragment_bound productName _ "" Hc));
    try (apply (marked_fragment_bound productName _ "" Ha));
    apply (marked_fragment_bound productName _ _ Hp).
Qed.

Lemma entities_at_most_markers_witness :
  List.length (parseCompetitors "1. Competitors:
1. Name: Acme") <= count_markers "1. Competitors:
1. Name: Acme"
  /\ List.length (customerPersonas (analyzeResponse "Widget" sample_response))
     <= count_markers (personasSection (sectionFragments sample_response)).
Proof.
  split.
  - apply (proj1 (entities_at_most_markers "Widget" "1. Competitors:
1. Name: Acme" "" sample_response)).
    reflexivity.
  - apply (proj2 (entities_at_most_markers "Widget" "" "" sample_response)).
    vm_compute. reflexivity.
Defined.

(** * The handler [analyzeProduct] *)

Section Handler.

Variable apiKey : option string.
Variable service : string -> App.Completion.

Lemma errorMessage_truthy (message : option string) :
  truthy (App.errorMessage message) = true.
Proof.
  unfold App.errorMessage. destruct message as [m|]; [|reflexivity].
  destruct (truthy m) eqn:T; [exact T | reflexivity].
Qed.

(** The state after a run that passes the two guards. *)
Lemma run_guarded (st : App.State) :
  truthy (trim (App.productName st)) = true ->
  truthy (trim (App.location st)) = true ->
  App.run apiKey service st =
  match App.attempt apiKey service (App.productName st) (App.location st) with
  | inl analysis =>
      App.mkState (App.productName st) (App.location st) (Some analysis) false None
  | inr message =>
      App.mkState (App.productName st) (App.location st) None false
        (Some (App.errorMessage message))
  end.
Proof.
  intros Hp Hl. unfold App.run, App.analyzeProduct. rewrite Hp, Hl. cbn [negb].
  destruct (App.attempt apiKey service (App.productName st) (App.location st));
    reflexivity.
Qed.

End Handler.

(** X1.  A run of the handler that passes the two guards ends with
    [loading] false and with exactly one of the analysis and the error
    message set; the message is never the empty string, so the failure is
    always shown.  Whatever the inputs, a state without error after the run
    shows the analysis of this run's response. *)
Theorem run_outcome (apiKey : option string) (service : string -> App.Completion)
  (st : App.State) :
  let st' := App.run apiKey service st in
  (truthy (trim (App.productName st)) = true ->
   truthy (trim (App.location st)) = true ->
   App.loading st' = false
   /\ ((exists analysis, App.marketData st' = Some analysis /\ App.error st' = None)
       \/ (exists m, App.marketData st' = None /\ App.error st' = Some m /\ m <> "")))
  /\ (App.error st' = None ->
      exists response,
        service (buildPrompt (App.productName st) (App.location st))
        = App.Resolved (Some response)
        /\ response <> ""
        /\ App.marketData st'
           = Some (App.mkAnalysis (analyzeResponse (App.productName st) response)
                     (buildPrompt (App.productName st) (App.location st)))).
Proof.
  cbv zeta. split.
  - intros Hp Hl. rewrite (run_guarded _ _ _ Hp Hl).
    destruct (App.attempt apiKey service (App.productName st) (App.location st))
      as [analysis|message]; cbn.
    + split; [reflexivity|]. left. now exists analysis.
    + split; [reflexivity|]. right. exists (App.errorMessage message).
      repeat split. apply truthy_true, errorMessage_truthy.
  - unfold App.run, App.analyzeProduct.
    destruct (truthy (trim (App.productName st))); cbn [negb]; [|discriminate].
    destruct (truthy (trim (App.location st))); cbn [negb]; [|discriminate].
    unfold App.attempt.
    destruct (present apiKey); cbn [negb]; [|discriminate].
    destruct (service (buildPrompt (App.productName st) (App.location st)))
      as [message|[response|]]; try discriminate.
    destruct (truthy response) eqn:T; cbn [negb]; [|discriminate].
    intros _. exists response. repeat split. now apply truthy_true.
Qed.

Lemma run_outcome_witness :
  App.loading (App.run None (fun _ => App.Resolved None)
                 (App.mkState "Widget" "Oslo" None true None)) = false.
Proof.
  apply (proj1 (run_outcome None (fun _ => App.Resolved None)
                  (App.mkState "Widget" "Oslo" None true None))); reflexivity.
Defined.

(** X2.  When a guard stops the handler (blank product name, or blank
    location), the only change of the state is the error message: an
    analysis shown before stays shown and [loading] keeps its value.  The
    product name is tested first.  A run that passes the guards and fails
    clears the analysis shown before. *)
Theorem run_guard_keeps_state (apiKey : option string)
  (service : string -> App.Completion) (st : App.State) :
  let st' := App.run apiKey service st in
  (trim (App.productName st) = "" ->
   st' = App.mkState (App.productName st) (App.location st) (App.marketData st)
           (App.loading st) (Some "Please enter a product name"))
  /\ (trim (App.productName st) <> "" -> trim (App.location st) = "" ->
      st' = App.mkState (App.productName st) (App.location st) (App.marketData st)
              (App.loading st) (Some "Please enter a location"))
  /\ (trim (App.productName st) <> "" -> trim (App.location st) <> "" ->
      App.error st' <> None -> App.marketData st' = None).
Proof.
  cbv zeta. split; [|split].
  - intro Hp. apply truthy_false in Hp.
    unfold App.run, App.analyzeProduct. rewrite Hp. reflexivity.
  - intros Hp Hl. apply truthy_true in Hp. apply truthy_false in Hl.
    unfold App.run, App.analyzeProduct. rewrite Hp, Hl. reflexivity.
  - intros Hp Hl. apply truthy_true in Hp. apply truthy_true in Hl.
    rewrite (run_guarded _ _ _ Hp Hl).
    destruct (App.attempt apiKey service (App.productName st) (App.location st));
      cbn; [congruence | reflexivity].
Qed.

Lemma run_guard_keeps_state_witness :
  App.run (Some "key") (fun _ => App.Resolved (Some "text"))
    (App.mkState "Widget" "  " None false None)
  = App.mkState "Widget" "  " None false (Some "Please enter a location").
Proof.
  apply (proj1 (proj2 (run_guard_keeps_state (Some "key")
                         (fun _ => App.Resolved (Some "text"))
                         (App.mkState "Widget" "  " None false None)))).
  - vm_compute. discriminate.
  - reflexivity.
Defined.

(** X3.  The service is not consulted when the product name or the
    location is blank or when the API key is missing or empty: the setter
    calls of the run are the same for every service.  With a missing key the
    message is the one of the key. *)
Theorem service_not_consulted (apiKey : option string)
  (service service' : string -> App.Completion) (st : App.State) :
  (trim (App.productName st) = "" \/ trim (App.location st) = ""
   \/ present apiKey = false ->
   App.analyzeProduct apiKey service st = App.analyzeProduct apiKey service' st)
  /\ (trim (App.productName st) <> "" -> trim (App.location st) <> "" ->
      present apiKey = false ->
      App.error (App.run apiKey service st)
      = Some "OpenAI API key is not configured").
Proof.
  split.
  - intro H. unfold App.analyzeProduct, App.attempt.
    destruct (truthy (trim (App.productName st))) eqn:Tp; cbn [negb]; [|reflexivity].
    destruct (truthy (trim (App.location st))) eqn:Tl; cbn [negb]; [|reflexivity].
    destruct H as [H|[H|H]].
    + apply truthy_false in H. congruence.
    + apply truthy_false in H. congruence.
    + rewrite H. reflexivity.
  - intros Hp Hl Hk. apply truthy_true in Hp. apply truthy_true in Hl.
    rewrite (run_guarded _ _ _ Hp Hl). unfold App.attempt. rewrite Hk. reflexivity.
Qed.

Lemma service_not_consulted_witness :
  App.analyzeProduct (Some "") (fun _ => App.Resolved (Some "text"))
    (App.mkState "Widget" "Oslo" None false None)
  = App.analyzeProduct (Some "") (fun _ => App.Rejected None)
    (App.mkState "Widget" "Oslo" None false None).
Proof.
  apply (proj1 (service_not_consulted (Some "")
                  (fun _ => App.Resolved (Some "text")) (fun _ => App.Rejected None)
                  (App.mkState "Widget" "Oslo" None false None))).
  right. right. reflexivity.
Defined.

(** * More on the section splitter *)

Section Fragments.

Lemma classify_sorted (L l : list string) (acc : Fragments) :
  (forall p, In p l -> In p L) ->
  fragments_sorted L acc -> fragments_sorted L (fold_left classify l acc).
Proof.
  revert acc. induction l as [|p l IH]; intros acc Hl Hacc; [exact Hacc|].
  cbn [fold_left]. apply IH; [intros q Hq; apply Hl; now right|].
  assert (In p L) as Hp by (apply Hl; now left).
  unfold fragments_sorted in *. unfold classify. destruct acc as [c a q k].
  cbn in Hacc. destruct Hacc as [H1 [H2 [H3 H4]]].
  destruct (includes p "Competitors:") eqn:I1; [cbn; tauto|].
  destruct (includes p "Product Applications:") eqn:I2; [cbn; tauto|].
  destruct (includes p "Customer Personas:") eqn:I3; [cbn; tauto|].
  destruct (includes p "Potential Customers:") eqn:I4; cbn; tauto.
Qed.

(** After the last piece that takes a variable, the variable keeps it. *)
Lemma classify_last (l1 l2 : list string) (p : string) (acc : Fragments) :
  let f := fold_left classify (l1 ++ p :: l2) acc in
  (includes p "Competitors:" = true ->
   (forall q, In q l2 -> includes q "Competitors:" = false) ->
   competitorsSection f = p)
  /\ (includes p "Competitors:" = false ->
      includes p "Product Applications:" = true ->
      (forall q, In q l2 -> includes q "Product Applications:" = false) ->
      applicationsSection f = p)
  /\ (includes p "Competitors:" = false ->
      includes p "Product Applications:" = false ->
      includes p "Customer Personas:" = true ->
      (forall q, In q l2 -> includes q "Customer Personas:" = false) ->
      personasSection f = p)
  /\ (includes p "Competitors:" = false ->
      includes p "Product Applications:" = false ->
      includes p "Customer Personas:" = false ->
      includes p "Potential Customers:" = true ->
      (forall q, In q l2 -> includes q "Potential Customers:" = false) ->
      customersSection f = p).
Proof.
  cbv zeta. rewrite fold_left_app. cbn [fold_left].
  destruct (fold_left classify l1 acc) as [c a q k].
  split; [|split; [|split]].
  - intros I1 H. rewrite (classify_competitors _ _ H).
    unfold classify. now rewrite I1.
  - intros I1 I2 H. rewrite (classify_applications _ _ H).
    unfold classify. now rewrite I1, I2.
  - intros I1 I2 I3 H. rewrite (classify_personas _ _ H).
    unfold classify. now rewrite I1, I2, I3.
  - intros I1 I2 I3 I4 H. rewrite (classify_customers _ _ H).
    unfold classify. now rewrite I1, I2, I3, I4.
Qed.

Lemma split_lookahead_rest (at_pos : string -> bool) (s first p : string)
  (rest : list string) :
  split_lookahead at_pos s = first :: rest -> In p rest ->
  exists t, at_pos (p ++ t) = true.
Proof.
  destruct s as [|c s]; [intro H; injection H as _ <-; contradiction|].
  unfold split_lookahead.
  destruct (lookahead_cuts_pieces at_pos s) as [p0 [r [E [_ Hr]]]].
  rewrite E. cbn [cons_head]. intros H Hp. injection H as _ <-.
  destruct (Hr p Hp) as [t [Ht _]]. now exists t.
Qed.

End Fragments.

(** X4.  The section split loses no text: the pieces, put together in
    order, are the response; and it cuts before headings only: each piece
    after the first begins where a section heading matches. *)
Theorem section_split_lossless (response : string) :
  String.concat "" (split_lookahead heading_at response) = response
  /\ (forall first rest p,
        split_lookahead heading_at response = first :: rest -> In p rest ->
        exists t, heading_at (p ++ t) = true).
Proof.
  split; [apply split_lookahead_concat|].
  intros first rest p. apply split_lookahead_rest.
Qed.

Lemma section_split_lossless_witness :
  exists t, heading_at ("2. Product Applications:
x" ++ t) = true.
Proof.
  apply (proj2 (section_split_lossless "1. Competitors:
a
2. Product Applications:
x") "1. Competitors:
a
" ["2. Product Applications:
x"] "2. Product Applications:
x").
  - reflexivity.
  - left. reflexivity.
Defined.

(** X5.  Each of the four fragments of a response is empty or is a piece
    of the section split that includes the title of its section and
    includes none of the titles the classifying chain tests earlier: the
    applications fragment never includes "Competitors:", and so on down the
    chain. *)
Theorem fragments_by_title (response : string) :
  fragments_sorted (split_lookahead heading_at response) (sectionFragments response).
Proof.
  unfold sectionFragments. apply classify_sorted; [auto|].
  unfold fragments_sorted. cbn. tauto.
Qed.

(** X6.  A fragment variable holds the last piece of the section split
    that the classifying chain gives to it: a piece that includes
    "Competitors:" goes to the competitors fragment whatever else it
    includes, and a later piece with the same title replaces an earlier
    one. *)
Theorem last_piece_wins (response : string) (l1 l2 : list string) (p : string) :
  split_lookahead heading_at response = (l1 ++ p :: l2)%list ->
  let f := sectionFragments response in
  (includes p "Competitors:" = true ->
   (forall q, In q l2 -> includes q "Competitors:" = false) ->
   competitorsSection f = p)
  /\ (includes p "Competitors:" = false ->
      includes p "Product Applications:" = true ->
      (forall q, In q l2 -> includes q "Product Applications:" = false) ->
      applicationsSection f = p)
  /\ (includes p "Competitors:" = false ->
      includes p "Product Applications:" = false ->
      includes p "Customer Personas:" = true ->
      (forall q, In q l2 -> includes q "Customer Personas:" = false) ->
      personasSection f = p)
  /\ (includes p "Competitors:" = false ->
      includes p "Product Applications:" = false ->
      includes p "Customer Personas:" = false ->
      includes p "Potential Customers:" = true ->
      (forall q, In q l2 -> includes q "Potential Customers:" = false) ->
      customersSection f = p).
Proof.
  intro H. cbv zeta. unfold sectionFragments. rewrite H. apply classify_last.
Qed.

(** A personas section that mentions "Competitors:" in a description is
    taken for the competitors section. *)
Lemma last_piece_wins_witness :
  competitorsSection (sectionFragments "1. Competitors:
a
3. Customer Personas:
1. Name: Buyer
Description: Compares Competitors: all of them") = "3. Customer Personas:
1. Name: Buyer
Description: Compares Competitors: all of them".
Proof.
  apply (proj1 (last_piece_wins "1. Competitors:
a
3. Customer Personas:
1. Name: Buyer
Description: Compares Competitors: all of them" ["1. Competitors:
a
"] [] "3. Customer Personas:
1. Name: Buyer
Description: Compares Competitors: all of them" eq_refl)).
  - reflexivity.
  - intros q [].
Defined.

(** * More on the record split *)

Section RecordSplit.

Lemma dropWhile_suffix (f : ascii -> bool) (s : string) :
  exists a, s = a ++ dropWhile f s /\ all_chars f a = true.
Proof.
  induction s as [|c s [a [IH Ha]]]; [now exists EmptyString|].
  cbn [dropWhile]. destruct (f c) eqn:F.
  - exists (String c a). cbn. rewrite F, Ha. now rewrite <- IH.
  - now exists EmptyString.
Qed.

Lemma dropWhile_all (f : ascii -> bool) (d r : string) :
  all_chars f d = true -> dropWhile f (d ++ r) = dropWhile f r.
Proof.
  induction d as [|c d IH]; [reflexivity|].
  cbn. destruct (f c); [exact IH | discriminate].
Qed.

(** A match is a non-empty run of digits, a dot and a non-empty run of
    white space in front of the rest. *)
Lemma match_marker_shape (s rest : string) :
  match_marker s = Some rest ->
  exists d w, s = d ++ "." ++ w ++ rest
    /\ d <> "" /\ all_chars is_digit d = true
    /\ w <> "" /\ all_chars is_ws w = true.
Proof.
  unfold match_marker. destruct s as [|c s]; [discriminate|].
  destruct (is_digit c) eqn:D; [|discriminate].
  destruct (dropWhile_suffix is_digit (String c s)) as [d [Hd Ad]].
  destruct (dropWhile is_digit (String c s)) as [|x r]; [discriminate|].
  destruct (Ascii.eqb_spec x "."%char) as [->|]; [|discriminate].
  destruct (dropWhile_suffix is_ws r) as [w [Hw Aw]].
  destruct r as [|y r]; [discriminate|].
  destruct (is_ws y) eqn:W; [|discriminate].
  intro H. injection H as <-.
  exists d, w. rewrite Hd at 1. rewrite Hw at 1.
  repeat split; try assumption.
  - intros ->. cbn in Hd. injection Hd as ->. discriminate.
  - intros ->. cbn in Hw. cbn in Hw. rewrite W in Hw.
    apply (f_equal String.length) in Hw. cbn in Hw.
    pose proof (dropWhile_length is_ws r). lia.
Qed.

Lemma match_marker_make (d w b : string) :
  d <> "" -> all_chars is_digit d = true ->
  w <> "" -> all_chars is_ws w = true ->
  trimStart b = b ->
  match_marker (d ++ "." ++ w ++ b) = Some b.
Proof.
  intros Hd Ad Hw Aw Hb. unfold match_marker.
  destruct d as [|c d]; [contradiction|]. cbn [append].
  cbn in Ad. apply andb_true_iff in Ad. destruct Ad as [Dc Ad]. rewrite Dc.
  cbn [dropWhile]. rewrite Dc, (dropWhile_all _ _ _ Ad).
  cbn [append dropWhile].
  change (is_digit "."%char) with false. cbv iota. rewrite Ascii.eqb_refl.
  destruct w as [|y w]; [contradiction|]. cbn [append].
  cbn in Aw. apply andb_true_iff in Aw. destruct Aw as [Wy Aw]. rewrite Wy.
  cbn [dropWhile]. rewrite Wy, (dropWhile_all _ _ _ Aw). now f_equal.
Qed.

Lemma match_marker_not_digit (c : ascii) (s : string) :
  is_digit c = false -> match_marker (String c s) = None.
Proof. intro H. unfold match_marker. now rewrite H. Qed.

(** A prefix without digits is scanned through: it is in front of the first
    piece of what follows. *)
Lemma split_marker_no_digit (a m first : string) (rest : list string) :
  all_chars not_digit a = true ->
  split_marker m = first :: rest ->
  split_marker (a ++ m) = (a ++ first) :: rest.
Proof.
  intros Ha Hm. induction a as [|c a IH]; [exact Hm|].
  cbn in Ha. apply andb_true_iff in Ha. destruct Ha as [Hc Ha].
  cbn [append]. rewrite split_marker_step.
  - rewrite (IH Ha). reflexivity.
  - apply match_marker_not_digit. unfold not_digit in Hc. now destruct (is_digit c).
Qed.

Lemma split_marker_plain (a : string) :
  all_chars not_digit a = true -> split_marker a = [a].
Proof.
  intro Ha. rewrite <- (app_empty_r a) at 1.
  rewrite (split_marker_no_digit a "" "" [] Ha eq_refl). now rewrite app_empty_r.
Qed.

Lemma split_marker_at_marker (a d w b : string) :
  all_chars not_digit a = true ->
  d <> "" -> all_chars is_digit d = true ->
  w <> "" -> all_chars is_ws w = true ->
  trimStart b = b ->
  split_marker (a ++ d ++ "." ++ w ++ b) = a :: split_marker b.
Proof.
  intros Ha Hd Ad Hw Aw Hb.
  rewrite (split_marker_no_digit a _ "" (split_marker b) Ha).
  - now rewrite app_empty_r.
  - apply split_marker_match. now apply match_marker_make.
Qed.

Lemma split_marker_infix (s p : string) :
  In p (split_marker s) -> exists a b, s = a ++ p ++ b.
Proof.
  revert p.
  induction s as [|s rest E IH|c s E IH] using marker_scan_ind; intros p H.
  - destruct H as [<-|[]]. now exists EmptyString, EmptyString.
  - rewrite (split_marker_match _ _ E) in H. destruct H as [<-|H].
    + now exists EmptyString, s.
    + destruct (IH p H) as [a [b ->]].
      destruct (match_marker_shape _ _ E) as [d [w [-> _]]].
      exists (d ++ "." ++ w ++ a), b. now rewrite !app_assoc.
  - rewrite (split_marker_step _ _ E) in H.
    pose proof (split_marker_nonempty s) as NE.
    destruct (split_marker s) as [|q qs] eqn:Q; [contradiction|].
    cbn in H. destruct H as [<-|H].
    + destruct (split_marker_first s q qs Q) as [t ->].
      now exists EmptyString, t.
    + destruct (IH p (or_intror H)) as [a [b ->]].
      now exists (String c a), b.
Qed.

Lemma split_marker_total_length (s : string) :
  String.length (String.concat "" (split_marker s)) + 3 * count_markers s
  <= String.length s.
Proof.
  induction s as [|s rest E IH|c s E IH] using marker_scan_ind.
  - cbn. lia.
  - rewrite (split_marker_match _ _ E), (count_markers_match _ _ E), concat_cons.
    destruct (match_marker_shape _ _ E) as [d [w [-> [Hd [_ [Hw _]]]]]].
    rewrite !length_app. cbn [append String.length].
    destruct d; [contradiction|]. destruct w; [contradiction|].
    cbn [String.length]. lia.
  - rewrite (split_marker_step _ _ E), (count_markers_step _ _ E), concat_cons_head.
    cbn [String.length]. lia.
Qed.

End RecordSplit.

(** X7.  The record split gives one piece more than the text has markers;
    each piece is a part of the text; and every marker takes at least three
    characters out of the text. *)
Theorem record_split_pieces (s : string) :
  List.length (split_marker s) = S (count_markers s)
  /\ (forall p, In p (split_marker s) -> exists a b, s = a ++ p ++ b)
  /\ String.length (String.concat "" (split_marker s)) + 3 * count_markers s
     <= String.length s.
Proof.
  split; [apply split_marker_length|].
  split; [apply split_marker_infix | apply split_marker_total_length].
Qed.

Lemma record_split_pieces_witness :
  exists a b, "1. Name: A
2. Name: B" = a ++ "Name: B" ++ b.
Proof.
  apply (proj1 (proj2 (record_split_pieces "1. Name: A
2. Name: B"))).
  vm_compute. auto.
Defined.

(** X8.  A marker splits wherever it stands, at the start of a line or
    inside one: for a text [a] without digit, a run of digits [d], a run of
    white space [w] and a text [b] that does not begin with white space,
    the split of [a d . w b] is [a] followed by the split of [b].  The
    digits are not looked at, and a sentence that ends in a number and a
    dot before a line break cuts a record in two. *)
Theorem marker_splits_anywhere (a d w b : string) :
  all_chars not_digit a = true ->
  d <> "" -> all_chars is_digit d = true ->
  w <> "" -> all_chars is_ws w = true ->
  trimStart b = b ->
  split_marker (a ++ d ++ "." ++ w ++ b) = a :: split_marker b.
Proof. apply split_marker_at_marker. Qed.

Lemma marker_splits_anywhere_witness :
  split_marker ("Description: founded in " ++ "1999" ++ "." ++ "
" ++ "Revenue: high")
  = "Description: founded in " :: split_marker "Revenue: high".
Proof.
  apply marker_splits_anywhere; try reflexivity; discriminate.
Defined.

(** * Sub-records, line by line *)

Section Blank.

Lemma trimEnd_head_kept (c : ascii) (r : string) :
  is_ws c = false -> trimEnd (String c r) <> "".
Proof.
  intro W. cbn [trimEnd]. destruct (trimEnd r); [now rewrite W | discriminate].
Qed.

(** [trim] gives the empty string on white space only. *)
Lemma trim_blank (s : string) :
  trim s = "" <-> all_chars is_ws s = true.
Proof.
  unfold trim. split.
  - intro H. pose proof (trimStart_head s) as Hh.
    destruct (trimStart s) as [|c r] eqn:E.
    + destruct (dropWhile_suffix is_ws s) as [a [Ha Aa]].
      unfold trimStart in E. rewrite E, app_empty_r in Ha. now subst a.
    + exfalso. now apply (trimEnd_head_kept c r Hh).
  - intro H. unfold trimStart.
    rewrite <- (app_empty_r s), (dropWhile_all _ _ _ H). reflexivity.
Qed.

Lemma all_chars_before_first (f : ascii -> bool) (sep : ascii) (s : string) :
  all_chars f s = true -> all_chars f (before_first sep s) = true.
Proof.
  induction s as [|c s IH]; [reflexivity|]. cbn.
  destruct (Ascii.eqb c sep); [reflexivity|].
  intro H. apply andb_true_iff in H. destruct H as [Hc H].
  cbn. now rewrite Hc, IH.
Qed.

Lemma all_chars_split_char (f : ascii -> bool) (sep : ascii) (s p : string) :
  all_chars f s = true -> In p (split_char sep s) -> all_chars f p = true.
Proof.
  revert p. induction s as [|c s IH]; intros p H Hp.
  - destruct Hp as [<-|[]]. reflexivity.
  - cbn in H. apply andb_true_iff in H. destruct H as [Hc H].
    cbn [split_char] in Hp. destruct (Ascii.eqb c sep).
    + destruct Hp as [<-|Hp]; [reflexivity | now apply IH].
    + pose proof (split_char_nonempty sep s) as NE.
      destruct (split_char sep s) as [|q qs]; [contradiction|].
      cbn in Hp. destruct Hp as [<-|Hp].
      * cbn. rewrite Hc. apply IH; [exact H | now left].
      * apply IH; [exact H | now right].
Qed.

(** A line that gives a value to a label has a non-empty key and value. *)
Lemma labelled_truthy (label line : string) :
  labelled label line = true ->
  truthy (fst (keyValue line)) = true /\ truthy (snd (keyValue line)) = true
  /\ toLowerCase (fst (keyValue line)) = label.
Proof.
  unfold labelled, skipped. destruct (keyValue line) as [key value]. cbn [fst snd].
  destruct (truthy key), (truthy value); cbn; try discriminate.
  intro H. apply String.eqb_eq in H. auto.
Qed.

Lemma labelled_not_blank (label line : string) :
  labelled label line = true -> all_chars is_ws line = false.
Proof.
  intro H. apply labelled_truthy in H. destruct H as [H _].
  rewrite keyValue_parts in H. cbn [fst] in H.
  destruct (all_chars is_ws line) eqn:A; [|reflexivity].
  apply (all_chars_before_first _ ":"%char) in A. apply trim_blank in A.
  rewrite A in H. discriminate.
Qed.

Lemma last_In (vs : list string) (d : string) :
  vs <> [] -> In (last vs d) vs.
Proof.
  induction vs as [|v vs IH]; [congruence|]. intros _.
  destruct vs as [|w vs]; [now left|]. right. apply IH. discriminate.
Qed.

(** The last value of a label comes from a line of the sub-record. *)
Lemma lastValue_In (label : string) (lines : list string) (v : string) :
  lastValue label lines = Some v ->
  exists line, In line lines /\ labelled label line = true
               /\ v = snd (keyValue line).
Proof.
  unfold lastValue. rewrite last_map_Some.
  destruct (valuesOf label lines) as [|w ws] eqn:E; [discriminate|].
  intro H. injection H as <-.
  assert (In (last (w :: ws) "") (valuesOf label lines)) as Hin.
  { rewrite E. apply last_In. discriminate. }
  unfold valuesOf in Hin. apply in_map_iff in Hin.
  destruct Hin as [line [Hv Hl]]. apply filter_In in Hl.
  exists line. intuition.
Qed.

Lemma lastValue_truthy (label : string) (lines : list string) (v : string) :
  lastValue label lines = Some v -> truthy v = true.
Proof.
  intro H. apply lastValue_In in H. destruct H as [line [_ [Hl ->]]].
  now apply labelled_truthy in Hl.
Qed.

Lemma lastValue_not_blank (label section v : string) :
  lastValue label (split_char LF section) = Some v ->
  truthy (trim section) = true.
Proof.
  intro H. apply lastValue_In in H. destruct H as [line [Hin [Hl _]]].
  apply labelled_not_blank in Hl.
  destruct (truthy (trim section)) eqn:T; [reflexivity|].
  apply truthy_false, trim_blank in T.
  rewrite (all_chars_split_char _ _ _ _ T Hin) in Hl. discriminate.
Qed.

End Blank.

Section SubRecord.

Lemma competitorOf_lines (section : string) :
  let lines := split_char LF section in
  competitorOf section =
  match lastValue "name" lines, lastValue "description" lines,
        lastValue "headquarters" lines, lastValue "revenue" lines with
  | Some n, Some d, Some h, Some r => [Competitor.mk n d h r]
  | _, _, _, _ => []
  end.
Proof.
  cbv zeta. unfold competitorOf, competitorSection.
  destruct (competitorFields_last section) as [H1 [H2 [H3 H4]]].
  destruct (competitorFields section) as [n d h r]. cbn in H1, H2, H3, H4.
  rewrite <- H1, <- H2, <- H3, <- H4.
  destruct n as [n|], d as [d|], h as [h|], r as [r|];
    try (destruct (negb _); reflexivity).
  symmetry in H1, H2, H3, H4.
  rewrite (lastValue_not_blank _ _ _ H1). cbn [negb competitorBuilt].
  rewrite (lastValue_truthy _ _ _ H1), (lastValue_truthy _ _ _ H2),
    (lastValue_truthy _ _ _ H3), (lastValue_truthy _ _ _ H4).
  reflexivity.
Qed.

Lemma applicationOf_lines (section : string) :
  let lines := split_char LF section in
  applicationOf section =
  match lastValue "name" lines, lastValue "description" lines,
        lastValue "market size" lines, lastValue "growth rate" lines with
  | Some n, Some d, Some m, Some g => [Application.mk n d m g]
  | _, _, _, _ => []
  end.
Proof.
  cbv zeta. unfold applicationOf, applicationSection.
  destruct (applicationFields_last section) as [H1 [H2 [H3 H4]]].
  destruct (applicationFields section) as [n d m g]. cbn in H1, H2, H3, H4.
  rewrite <- H1, <- H2, <- H3, <- H4.
  destruct n as [n|], d as [d|], m as [m|], g as [g|];
    try (destruct (negb _); reflexivity).
  symmetry in H1, H2, H3, H4.
  rewrite (lastValue_not_blank _ _ _ H1). cbn [negb applicationBuilt].
  rewrite (lastValue_truthy _ _ _ H1), (lastValue_truthy _ _ _ H2),
    (lastValue_truthy _ _ _ H3), (lastValue_truthy _ _ _ H4).
  reflexivity.
Qed.

Lemma personaOf_lines (customersText section : string) :
  let lines := split_char LF section in
  personaOf customersText section =
  match lastValue "name" lines, lastValue "description" lines,
        lastValue "cares most about" lines, lastValue "cares least about" lines with
  | Some n, Some d, Some m, Some l =>
      [CustomerPersona.mk n d m l (relevantCustomers n customersText) None None]
  | _, _, _, _ => []
  end.
Proof.
  cbv zeta. unfold personaOf, personaSection.
  destruct (personaFields_last section) as [H1 [H2 [H3 H4]]].
  destruct (personaFields section) as [n d m l pc]. cbn in H1, H2, H3, H4.
  rewrite <- H1, <- H2, <- H3, <- H4.
  destruct n as [n|], d as [d|], m as [m|], l as [l|];
    try (destruct (negb _); reflexivity).
  symmetry in H1, H2, H3, H4.
  rewrite (lastValue_not_blank _ _ _ H1). cbn [negb personaBuilt].
  rewrite (lastValue_truthy _ _ _ H1), (lastValue_truthy _ _ _ H2),
    (lastValue_truthy _ _ _ H3), (lastValue_truthy _ _ _ H4).
  reflexivity.
Qed.

End SubRecord.

(** X9.  What a sub-record gives is decided by its labelled lines alone:
    it gives exactly one entity when each of the four labels of the kind has
    a line with non-empty key and value, and the fields are the values of
    the last such lines; otherwise it gives nothing.  Blank lines, lines
    without colon and lines with other keys play no part. *)
Theorem sub_record_by_labels (customersText section : string) :
  let lines := split_char LF section in
  competitorOf section =
    match lastValue "name" lines, lastValue "description" lines,
          lastValue "headquarters" lines, lastValue "revenue" lines with
    | Some n, Some d, Some h, Some r => [Competitor.mk n d h r]
    | _, _, _, _ => []
    end
  /\ applicationOf section =
    match lastValue "name" lines, lastValue "description" lines,
          lastValue "market size" lines, lastValue "growth rate" lines with
    | Some n, Some d, Some m, Some g => [Application.mk n d m g]
    | _, _, _, _ => []
    end
  /\ personaOf customersText section =
    match lastValue "name" lines, lastValue "description" lines,
          lastValue "cares most about" lines, lastValue "cares least about" lines with
    | Some n, Some d, Some m, Some l =>
        [CustomerPersona.mk n d m l (relevantCustomers n customersText) None None]
    | _, _, _, _ => []
    end.
Proof.
  cbv zeta. split; [apply competitorOf_lines|].
  split; [apply applicationOf_lines | apply personaOf_lines].
Qed.

(** * Characters of pieces, lines and values *)

Section Characters.

Lemma has_char_app (c : ascii) (a b : string) :
  has_char c (a ++ b) = has_char c a || has_char c b.
Proof.
  induction a as [|x a IH]; [reflexivity|].
  cbn. now rewrite IH, orb_assoc.
Qed.

Lemma has_char_part (c : ascii) (a p b : string) :
  has_char c (a ++ p ++ b) = false -> has_char c p = false.
Proof.
  rewrite !has_char_app. intro H.
  apply orb_false_iff in H. destruct H as [_ H].
  now apply orb_false_iff in H.
Qed.

Lemma has_char_dropWhile (c : ascii) (f : ascii -> bool) (s : string) :
  has_char c s = false -> has_char c (dropWhile f s) = false.
Proof.
  intro H. destruct (dropWhile_suffix f s) as [a [Ha _]].
  rewrite Ha, has_char_app in H. now apply orb_false_iff in H.
Qed.

Lemma has_char_trimEnd (c : ascii) (s : string) :
  has_char c s = false -> has_char c (trimEnd s) = false.
Proof.
  induction s as [|x s IH]; [reflexivity|].
  cbn. intro H. apply orb_false_iff in H. destruct H as [Hx H].
  specialize (IH H). destruct (trimEnd s) as [|y r].
  - destruct (is_ws x); [reflexivity|]. cbn. now rewrite Hx.
  - change (has_char c (String x (String y r)))
      with (Ascii.eqb x c || has_char c (String y r)).
    now rewrite Hx, IH.
Qed.

Lemma has_char_trim (c : ascii) (s : string) :
  has_char c s = false -> has_char c (trim s) = false.
Proof.
  intro H. unfold trim, trimStart.
  now apply has_char_trimEnd, has_char_dropWhile.
Qed.

Lemma has_char_before_first (c sep : ascii) (s : string) :
  has_char c s = false -> has_char c (before_first sep s) = false.
Proof.
  induction s as [|x s IH]; [reflexivity|].
  cbn. intro H. apply orb_false_iff in H. destruct H as [Hx H].
  destruct (Ascii.eqb x sep); [reflexivity|]. cbn. now rewrite Hx, IH.
Qed.

Lemma before_first_free (sep : ascii) (s : string) :
  has_char sep (before_first sep s) = false.
Proof.
  induction s as [|x s IH]; [reflexivity|].
  cbn. destruct (Ascii.eqb x sep) eqn:E; [reflexivity|]. cbn. now rewrite E.
Qed.

Lemma has_char_split_char (c sep : ascii) (s p : string) :
  has_char c s = false -> In p (split_char sep s) -> has_char c p = false.
Proof.
  revert p. induction s as [|x s IH]; intros p H Hp.
  - destruct Hp as [<-|[]]. reflexivity.
  - cbn in H. apply orb_false_iff in H. destruct H as [Hx H].
    cbn [split_char] in Hp. destruct (Ascii.eqb x sep).
    + destruct Hp as [<-|Hp]; [reflexivity | now apply IH].
    + pose proof (split_char_nonempty sep s) as NE.
      destruct (split_char sep s) as [|q qs]; [contradiction|].
      cbn in Hp. destruct Hp as [<-|Hp].
      * cbn. rewrite Hx. apply IH; [exact H | now left].
      * apply IH; [exact H | now right].
Qed.

(** The pieces of a split hold no separator. *)
Lemma split_char_free (sep : ascii) (s p : string) :
  In p (split_char sep s) -> has_char sep p = false.
Proof.
  revert p. induction s as [|x s IH]; intros p Hp.
  - destruct Hp as [<-|[]]. reflexivity.
  - cbn [split_char] in Hp. destruct (Ascii.eqb x sep) eqn:E.
    + destruct Hp as [<-|Hp]; [reflexivity | now apply IH].
    + pose proof (split_char_nonempty sep s) as NE.
      destruct (split_char sep s) as [|q qs]; [contradiction|].
      cbn in Hp. destruct Hp as [<-|Hp].
      * cbn. rewrite E. apply IH. now left.
      * apply IH. now right.
Qed.

Lemma has_char_join (c : ascii) (sep : string) (parts : list string) :
  has_char c sep = false ->
  (forall p, In p parts -> has_char c p = false) ->
  has_char c (join sep parts) = false.
Proof.
  intros Hs. unfold join. induction parts as [|p parts IH]; intro H; [reflexivity|].
  cbn [String.concat]. destruct parts as [|q parts]; [apply H; now left|].
  rewrite !has_char_app, Hs, (H p) by now left.
  cbn [orb]. apply IH. intros r Hr. apply H. now right.
Qed.

Lemma keyValue_value_trimmed (line : string) :
  trim (snd (keyValue line)) = snd (keyValue line).
Proof.
  rewrite keyValue_parts. cbn [snd].
  destruct (after_first ":"%char line); [apply trim_idem | reflexivity].
Qed.

Lemma keyValue_value_chars (c : ascii) (line : string) :
  has_char c line = false -> Ascii.eqb ":"%char c = false ->
  has_char c (snd (keyValue line)) = false.
Proof.
  intros H Hc. unfold keyValue.
  pose proof (split_char_nonempty ":"%char line) as NE.
  assert (forall p, In p (map trim (split_char ":"%char line)) -> has_char c p = false)
    as Hparts.
  { intros p Hp. apply in_map_iff in Hp. destruct Hp as [q [<- Hq]].
    apply has_char_trim. now apply (has_char_split_char c ":"%char line). }
  destruct (map trim (split_char ":"%char line)) as [|key parts]; [reflexivity|].
  cbn [snd]. apply has_char_trim, has_char_join.
  - cbn [has_char]. now rewrite Hc.
  - intros p Hp. apply Hparts. now right.
Qed.

Lemma lastValue_clean (label section v : string) :
  lastValue label (split_char LF section) = Some v -> clean v.
Proof.
  intro H. apply lastValue_In in H. destruct H as [line [Hin [_ ->]]].
  split; [apply keyValue_value_trimmed|].
  apply keyValue_value_chars; [|reflexivity].
  now apply (split_char_free LF section).
Qed.

Lemma lastValue_unlabelled (label : string) (lines : list string) :
  (forall line, In line lines -> labelled label line = false) ->
  lastValue label lines = None.
Proof.
  intro H. destruct (lastValue label lines) as [v|] eqn:E; [|reflexivity].
  apply lastValue_In in E. destruct E as [line [Hin [Hl _]]].
  rewrite (H line Hin) in Hl. discriminate.
Qed.

Lemma labelled_colon (label line : string) :
  has_char ":"%char line = false -> labelled label line = false.
Proof.
  intro H. unfold labelled. rewrite keyValue_parts, (after_first_none _ _ H).
  unfold skipped. change (truthy "") with false. cbn [negb].
  now rewrite orb_true_r.
Qed.

End Characters.

Section Lines.

Lemma split_char_app (sep : ascii) (a b : string) :
  split_char sep (a ++ String sep b)
  = (split_char sep a ++ split_char sep b)%list.
Proof.
  induction a as [|c a IH]; cbn [append split_char].
  - now rewrite Ascii.eqb_refl.
  - rewrite IH. destruct (Ascii.eqb c sep); [reflexivity|].
    pose proof (split_char_nonempty sep a) as NE.
    destruct (split_char sep a); [contradiction | reflexivity].
Qed.

Lemma lastValue_skip (label line : string) (la lb : list string) :
  labelled label line = false ->
  lastValue label (la ++ line :: lb) = lastValue label (la ++ lb).
Proof.
  intro H. unfold lastValue, valuesOf.
  rewrite !filter_app. cbn [filter]. now rewrite H.
Qed.

Lemma lines_insert (a line b : string) :
  has_char LF line = false ->
  split_char LF (a ++ String LF (line ++ String LF b))
  = (split_char LF a ++ line :: split_char LF b)%list
  /\ split_char LF (a ++ String LF b) = (split_char LF a ++ split_char LF b)%list.
Proof.
  intro H. rewrite !split_char_app, (split_char_none _ _ H). auto.
Qed.

Lemma valuesOf_perm (label : string) (l l' : list string) :
  Permutation l l' -> Permutation (valuesOf label l) (valuesOf label l').
Proof.
  intro P. unfold valuesOf. apply Permutation_map.
  induction P as [|x l l' P IH|x y l|l l' l'' P1 IH1 P2 IH2]; cbn [filter].
  - constructor.
  - destruct (labelled label x); [now constructor | exact IH].
  - destruct (labelled label x), (labelled label y);
      try apply Permutation_refl. constructor.
  - now transitivity (filter (labelled label) l').
Qed.

Lemma lastValue_perm (label : string) (l l' : list string) :
  Permutation l l' -> List.length (valuesOf label l) <= 1 ->
  lastValue label l = lastValue label l'.
Proof.
  intros P H. apply (valuesOf_perm label) in P. unfold lastValue.
  destruct (valuesOf label l) as [|v [|w vs]].
  - apply Permutation_nil in P. now rewrite P.
  - apply Permutation_length_1_inv in P. now rewrite P.
  - cbn in H. lia.
Qed.

End Lines.

(** X10.  A line inside a sub-record that carries none of the labels of
    the kind changes nothing: the sub-record gives what it gives without
    the line.  A line without colon is such a line for every kind. *)
Theorem unlabelled_line_ignored (customersText a line b : string) :
  has_char LF line = false ->
  let with_line := a ++ String LF (line ++ String LF b) in
  let without := a ++ String LF b in
  (labelled "name" line = false -> labelled "description" line = false ->
   labelled "headquarters" line = false -> labelled "revenue" line = false ->
   competitorOf with_line = competitorOf without)
  /\ (labelled "name" line = false -> labelled "description" line = false ->
      labelled "market size" line = false -> labelled "growth rate" line = false ->
      applicationOf with_line = applicationOf without)
  /\ (labelled "name" line = false -> labelled "description" line = false ->
      labelled "cares most about" line = false ->
      labelled "cares least about" line = false ->
      personaOf customersText with_line = personaOf customersText without)
  /\ (has_char ":"%char line = false -> forall label, labelled label line = false).
Proof.
  intro H. cbv zeta. destruct (lines_insert a line b H) as [E1 E2].
  split; [|split; [|split]].
  - intros H1 H2 H3 H4. rewrite !competitorOf_lines. cbv zeta. rewrite E1, E2.
    now rewrite !lastValue_skip.
  - intros H1 H2 H3 H4. rewrite !applicationOf_lines. cbv zeta. rewrite E1, E2.
    now rewrite !lastValue_skip.
  - intros H1 H2 H3 H4. rewrite !personaOf_lines. cbv zeta. rewrite E1, E2.
    now rewrite !lastValue_skip.
  - intros Hc label. now apply labelled_colon.
Qed.

Lemma unlabelled_line_ignored_witness :
  competitorOf ("Name: Acme" ++ String LF ("Note: a remark" ++ String LF "Revenue: 1"))
  = competitorOf ("Name: Acme" ++ String LF "Revenue: 1").
Proof.
  apply (proj1 (unlabelled_line_ignored "" "Name: Acme" "Note: a remark" "Revenue: 1"
                  eq_refl)); reflexivity.
Defined.

(** X11.  The order of the lines of a sub-record does not matter when no
    label of the kind occurs on two lines: sub-records whose lines are a
    permutation of each other give the same entity. *)
Theorem line_order_irrelevant (customersText section section' : string) :
  Permutation (split_char LF section) (split_char LF section') ->
  let lines := split_char LF section in
  (List.length (valuesOf "name" lines) <= 1 ->
   List.length (valuesOf "description" lines) <= 1 ->
   List.length (valuesOf "headquarters" lines) <= 1 ->
   List.length (valuesOf "revenue" lines) <= 1 ->
   competitorOf section = competitorOf section')
  /\ (List.length (valuesOf "name" lines) <= 1 ->
      List.length (valuesOf "description" lines) <= 1 ->
      List.length (valuesOf "market size" lines) <= 1 ->
      List.length (valuesOf "growth rate" lines) <= 1 ->
      applicationOf section = applicationOf section')
  /\ (List.length (valuesOf "name" lines) <= 1 ->
      List.length (valuesOf "description" lines) <= 1 ->
      List.length (valuesOf "cares most about" lines) <= 1 ->
      List.length (valuesOf "cares least about" lines) <= 1 ->
      personaOf customersText section = personaOf customersText section').
Proof.
  intro P. cbv zeta. split; [|split]; intros H1 H2 H3 H4.
  - rewrite !competitorOf_lines. cbv zeta.
    now rewrite (lastValue_perm _ _ _ P H1), (lastValue_perm _ _ _ P H2),
      (lastValue_perm _ _ _ P H3), (lastValue_perm _ _ _ P H4).
  - rewrite !applicationOf_lines. cbv zeta.
    now rewrite (lastValue_perm _ _ _ P H1), (lastValue_perm _ _ _ P H2),
      (lastValue_perm _ _ _ P H3), (lastValue_perm _ _ _ P H4).
  - rewrite !personaOf_lines. cbv zeta.
    now rewrite (lastValue_perm _ _ _ P H1), (lastValue_perm _ _ _ P H2),
      (lastValue_perm _ _ _ P H3), (lastValue_perm _ _ _ P H4).
Qed.

Lemma line_order_irrelevant_witness :
  competitorOf "Revenue: 1
Name: Acme
Headquarters: Tucson
Description: Anvils"
  = competitorOf "Name: Acme
Description: Anvils
Headquarters: Tucson
Revenue: 1".
Proof.
  assert (Permutation (split_char LF "Revenue: 1
Name: Acme
Headquarters: Tucson
Description: Anvils") (split_char LF "Name: Acme
Description: Anvils
Headquarters: Tucson
Revenue: 1")) as P.
  { change (Permutation
              ["Revenue: 1"; "Name: Acme"; "Headquarters: Tucson"; "Description: Anvils"]
              (["Name: Acme"; "Description: Anvils"; "Headquarters: Tucson"]
               ++ ["Revenue: 1"])%list).
    apply Permutation_cons_app. rewrite app_nil_r.
    apply perm_skip, perm_swap. }
  apply (proj1 (line_order_irrelevant "" _ _ P)); vm_compute; lia.
Defined.

(** * The lists of the three parsers *)

Section Lists.

Lemma competitorOf_clean (section : string) (c : Competitor.t) :
  In c (competitorOf section) ->
  clean (Competitor.name c) /\ clean (Competitor.description c)
  /\ clean (Competitor.headquarters c) /\ clean (Competitor.revenue c).
Proof.
  rewrite competitorOf_lines. cbv zeta.
  destruct (lastValue "name" _) as [n|] eqn:H1; [|contradiction].
  destruct (lastValue "description" _) as [d|] eqn:H2; [|contradiction].
  destruct (lastValue "headquarters" _) as [h|] eqn:H3; [|contradiction].
  destruct (lastValue "revenue" _) as [r|] eqn:H4; [|contradiction].
  intros [<-|[]]. cbn.
  split; [|split; [|split]]; eapply lastValue_clean; eassumption.
Qed.

Lemma applicationOf_clean (section : string) (a : Application.t) :
  In a (applicationOf section) ->
  clean (Application.name a) /\ clean (Application.description a)
  /\ clean (Application.marketSize a) /\ clean (Application.growthRate a).
Proof.
  rewrite applicationOf_lines. cbv zeta.
  destruct (lastValue "name" _) as [n|] eqn:H1; [|contradiction].
  destruct (lastValue "description" _) as [d|] eqn:H2; [|contradiction].
  destruct (lastValue "market size" _) as [m|] eqn:H3; [|contradiction].
  destruct (lastValue "growth rate" _) as [g|] eqn:H4; [|contradiction].
  intros [<-|[]]. cbn.
  split; [|split; [|split]]; eapply lastValue_clean; eassumption.
Qed.

Lemma personaOf_clean (customersText section : string) (p : CustomerPersona.t) :
  In p (personaOf customersText section) ->
  clean (CustomerPersona.name p) /\ clean (CustomerPersona.description p)
  /\ clean (CustomerPersona.caresMostAbout p)
  /\ clean (CustomerPersona.caresLeastAbout p).
Proof.
  rewrite personaOf_lines. cbv zeta.
  destruct (lastValue "name" _) as [n|] eqn:H1; [|contradiction].
  destruct (lastValue "description" _) as [d|] eqn:H2; [|contradiction].
  destruct (lastValue "cares most about" _) as [m|] eqn:H3; [|contradiction].
  destruct (lastValue "cares least about" _) as [l|] eqn:H4; [|contradiction].
  intros [<-|[]]. cbn.
  split; [|split; [|split]]; eapply lastValue_clean; eassumption.
Qed.

Lemma persona_output_clean (productName text customersText : string)
  (p : CustomerPersona.t) :
  In p (parseCustomerPersonas productName text customersText) ->
  clean (CustomerPersona.name p) /\ clean (CustomerPersona.description p)
  /\ clean (CustomerPersona.caresMostAbout p)
  /\ clean (CustomerPersona.caresLeastAbout p).
Proof.
  unfold parseCustomerPersonas. intro H. apply in_map_iff in H.
  destruct H as [q [<- H]]. rewrite collectPersonas_flat in H.
  apply in_flat_map in H. destruct H as [s [_ H]].
  apply personaOf_clean in H. exact H.
Qed.

(** A sub-record without colon gives nothing. *)
Lemma no_colon_nothing (customersText section : string) :
  has_char ":"%char section = false ->
  competitorOf section = [] /\ applicationOf section = []
  /\ personaOf customersText section = [].
Proof.
  intro H.
  assert (forall label, lastValue label (split_char LF section) = None) as N.
  { intro label. apply lastValue_unlabelled. intros line Hl.
    apply labelled_colon. now apply (has_char_split_char _ LF section). }
  rewrite competitorOf_lines, applicationOf_lines, personaOf_lines. cbv zeta.
  now rewrite !N.
Qed.

Lemma flat_map_nothing (A : Type) (f : string -> list A) (l : list string) :
  (forall s, In s l -> f s = []) -> flat_map f l = [].
Proof.
  induction l as [|s l IH]; intro H; [reflexivity|].
  cbn. rewrite (H s) by now left. apply IH. intros t Ht. apply H. now right.
Qed.

End Lists.

(** X12.  Every field of every entity of the three lists is stored
    trimmed, with no white space at either end, and holds no line break. *)
Theorem values_clean (productName text customersText : string) :
  (forall c, In c (parseCompetitors text) ->
     clean (Competitor.name c) /\ clean (Competitor.description c)
     /\ clean (Competitor.headquarters c) /\ clean (Competitor.revenue c))
  /\ (forall a, In a (parseApplications text) ->
     clean (Application.name a) /\ clean (Application.description a)
     /\ clean (Application.marketSize a) /\ clean (Application.growthRate a))
  /\ (forall p, In p (parseCustomerPersonas productName text customersText) ->
     clean (CustomerPersona.name p) /\ clean (CustomerPersona.description p)
     /\ clean (CustomerPersona.caresMostAbout p)
     /\ clean (CustomerPersona.caresLeastAbout p)).
Proof.
  split; [|split].
  - intros c H. unfold parseCompetitors in H. rewrite collectCompetitors_flat in H.
    apply in_flat_map in H. destruct H as [s [_ H]]. now apply competitorOf_clean in H.
  - intros a H. unfold parseApplications in H. rewrite collectApplications_flat in H.
    apply in_flat_map in H. destruct H as [s [_ H]]. now apply applicationOf_clean in H.
  - apply persona_output_clean.
Qed.

Lemma values_clean_witness :
  clean (Competitor.name (Competitor.mk "Acme" "Makes anvils" "Tucson, USA" "$10B (2023:est.)")).
Proof.
  apply (proj1 (values_clean "" (competitorsSection (sectionFragments sample_response)) "")
           (Competitor.mk "Acme" "Makes anvils" "Tucson, USA" "$10B (2023:est.)")).
  vm_compute. left. reflexivity.
Defined.

(** X13.  A text without any colon gives three empty lists: no line of it
    can carry a label.  This covers the empty and the blank text. *)
Theorem no_colon_no_entity (productName text customersText : string) :
  has_char ":"%char text = false ->
  parseCompetitors text = [] /\ parseApplications text = []
  /\ parseCustomerPersonas productName text customersText = [].
Proof.
  intro H.
  assert (forall s, In s (split_marker text) -> has_char ":"%char s = false) as Hs.
  { intros s Hin. apply split_marker_infix in Hin. destruct Hin as [a [b E]].
    rewrite E in H. now apply has_char_part in H. }
  unfold parseCompetitors, parseApplications, parseCustomerPersonas.
  rewrite collectCompetitors_flat, collectApplications_flat, collectPersonas_flat.
  rewrite !flat_map_nothing; [auto| | |];
    intros s Hin; now apply (no_colon_nothing customersText s (Hs s Hin)).
Qed.

Lemma no_colon_no_entity_witness :
  parseCompetitors "1. Acme makes anvils
2. Globex" = [].
Proof.
  apply (no_colon_no_entity "" _ ""). reflexivity.
Defined.

(** X14.  The lists follow the markers of the text: for a text [a]
    without digit followed by a marker and a text [b], each parser gives the
    entities of [a] followed by the entities of [b]. *)
Theorem parse_at_marker (productName customersText a d w b : string) :
  all_chars not_digit a = true ->
  d <> "" -> all_chars is_digit d = true ->
  w <> "" -> all_chars is_ws w = true ->
  trimStart b = b ->
  let text := a ++ d ++ "." ++ w ++ b in
  parseCompetitors text = (parseCompetitors a ++ parseCompetitors b)%list
  /\ parseApplications text = (parseApplications a ++ parseApplications b)%list
  /\ parseCustomerPersonas productName text customersText
     = (parseCustomerPersonas productName a customersText
        ++ parseCustomerPersonas productName b customersText)%list.
Proof.
  intros Ha Hd Ad Hw Aw Hb. cbv zeta.
  unfold parseCompetitors, parseApplications, parseCustomerPersonas.
  rewrite (split_marker_at_marker a d w b Ha Hd Ad Hw Aw Hb), (split_marker_plain a Ha).
  rewrite !collectCompetitors_flat, !collectApplications_flat, !collectPersonas_flat.
  cbn [flat_map]. rewrite !app_nil_r, map_app. auto.
Qed.

Lemma parse_at_marker_witness :
  parseCompetitors ("Name: A" ++ "12" ++ "." ++ " " ++ "Name: B")
  = (parseCompetitors "Name: A" ++ parseCompetitors "Name: B")%list.
Proof.
  apply (parse_at_marker "" "" "Name: A" "12" " " "Name: B");
    try reflexivity; discriminate.
Defined.

(** * Personas, customers and e-mails *)

Section Personas.

Lemma personaOf_core (customersText customersText' section : string) :
  map personaCore (personaOf customersText section)
  = map personaCore (personaOf customersText' section).
Proof.
  rewrite !personaOf_lines. cbv zeta.
  repeat match goal with
         | |- context [lastValue ?label ?lines] => destruct (lastValue label lines)
         end; reflexivity.
Qed.

Lemma collectPersonas_core (customersText customersText' : string)
  (sections : list string) :
  map personaCore (collectPersonas customersText sections)
  = map personaCore (collectPersonas customersText' sections).
Proof.
  rewrite !collectPersonas_flat.
  induction sections as [|s l IH]; [reflexivity|].
  cbn [flat_map]. rewrite !map_app, IH.
  now rewrite (personaOf_core customersText customersText').
Qed.

Lemma withEmails_core (productName : string) (l : list CustomerPersona.t) :
  map personaCore (map (withEmails productName) l) = map personaCore l.
Proof. rewrite map_map. now apply map_ext. Qed.

Lemma includes_trans (a b c : string) :
  includes a b = true -> includes b c = true -> includes a c = true.
Proof.
  intros H1 H2. apply includes_iff in H1. apply includes_iff in H2.
  destruct H1 as [x [y ->]]. destruct H2 as [u [v ->]].
  apply includes_iff. exists (x ++ u), (v ++ y). now rewrite !app_assoc.
Qed.

Lemma crossReferenceLines_In (name : string) (lines : list string) (c : string) :
  In c (crossReferenceLines name lines) <->
  exists line, In line lines /\ relevant name line = true
               /\ c = customerLabel line /\ c <> "".
Proof.
  unfold crossReferenceLines. rewrite filter_In, in_map_iff. split.
  - intros [[line [<- Hl]] Hc]. apply filter_In in Hl.
    exists line. apply truthy_true in Hc. tauto.
  - intros [line [Hl [Hr [-> Hc]]]]. split.
    + exists line. split; [reflexivity|]. now apply filter_In.
    + now apply truthy_true.
Qed.

Lemma sales_subject (name productName most least segment : string) :
  has_char LF name = false -> has_char LF productName = false ->
  subjectLine (salesTemplate name productName most least segment)
  = "Subject: Streamline Your " ++ name ++ "'s Workflow with " ++ productName.
Proof.
  intros Hn Hp. unfold subjectLine, salesTemplate.
  rewrite before_first_app. cbn [has_char Ascii.eqb Bool.eqb orb LF]. f_equal.
  rewrite before_first_app, Hn. f_equal.
  rewrite before_first_app. cbn [has_char Ascii.eqb Bool.eqb orb LF]. f_equal.
  rewrite before_first_app, Hp.
  etransitivity; [|apply app_empty_r].
  apply (f_equal (append productName)). reflexivity.
Qed.

End Personas.

(** X15.  The customers text and the product name decide no persona:
    which personas are returned, in which order and with which four fields
    is the same for every customers text and product name. *)
Theorem personas_from_text_alone
  (productName productName' text customersText customersText' : string) :
  map personaCore (parseCustomerPersonas productName text customersText)
  = map personaCore (parseCustomerPersonas productName' text customersText').
Proof.
  unfold parseCustomerPersonas. rewrite !withEmails_core.
  apply collectPersonas_core.
Qed.

(** X16.  Each persona of the output carries both e-mails, and they are
    the templates of its own fields.  The subject line of its discovery
    e-mail is "Subject: Quick question about your <name> challenges" and,
    for a product name without line break, the subject line of its sales
    e-mail is "Subject: Streamline Your <name>'s Workflow with <product>":
    a name of the output holds no line break. *)
Theorem emails_of_output (productName text customersText : string)
  (p : CustomerPersona.t) :
  In p (parseCustomerPersonas productName text customersText) ->
  CustomerPersona.salesEmail p = Some (generateSalesEmail p productName)
  /\ CustomerPersona.discoveryEmail p = Some (generateDiscoveryEmail p productName)
  /\ subjectLine (generateDiscoveryEmail p productName)
     = "Subject: Quick question about your " ++ CustomerPersona.name p ++ " challenges"
  /\ (has_char LF productName = false ->
      subjectLine (generateSalesEmail p productName)
      = "Subject: Streamline Your " ++ CustomerPersona.name p
        ++ "'s Workflow with " ++ productName).
Proof.
  intro H. pose proof (persona_output_clean _ _ _ _ H) as [[_ Hn] _].
  apply parseCustomerPersonas_In in H. destruct H as [q [s [-> _]]].
  split; [reflexivity|]. split; [reflexivity|]. split.
  - rewrite generateDiscoveryEmail_template, discovery_subject.
    now rewrite Hn.
  - intro Hp. rewrite generateSalesEmail_template. now apply sales_subject.
Qed.

Lemma emails_of_output_witness :
  subjectLine (generateDiscoveryEmail
    (withEmails "Widget" (CustomerPersona.mk "Buyer" "d" "m" "l" [] None None)) "Widget")
  = "Subject: Quick question about your " ++ "Buyer" ++ " challenges".
Proof.
  apply (emails_of_output "Widget" "Name: Buyer
Description: d
Cares Most About: m
Cares Least About: l" ""
    (withEmails "Widget" (CustomerPersona.mk "Buyer" "d" "m" "l" [] None None))).
  vm_compute. left. reflexivity.
Defined.

(** X17.  Each potential customer of a persona of the output is the label
    of a relevant line of the customers text; it is not empty, is trimmed,
    and holds neither "-" nor a line break. *)
Theorem potential_customers_entries (productName text customersText : string)
  (p : CustomerPersona.t) (customer : string) :
  In p (parseCustomerPersonas productName text customersText) ->
  In customer (CustomerPersona.potentialCustomers p) ->
  (exists line, In line (split_char LF customersText)
     /\ relevant (CustomerPersona.name p) line = true
     /\ customer = customerLabel line)
  /\ customer <> "" /\ trim customer = customer
  /\ has_char "-"%char customer = false /\ has_char LF customer = false.
Proof.
  intros Hp Hc. rewrite (potentialCustomers_output _ _ _ _ Hp) in Hc.
  unfold crossReference in Hc. apply crossReferenceLines_In in Hc.
  destruct Hc as [line [Hl [Hr [-> Hne]]]].
  split; [now exists line|]. split; [exact Hne|]. unfold customerLabel.
  split; [apply trim_idem|]. split.
  - apply has_char_trim, before_first_free.
  - apply has_char_trim, has_char_before_first. now apply (split_char_free LF customersText).
Qed.

Lemma potential_customers_entries_witness :
  trim "Head buyer at Initech" = "Head buyer at Initech".
Proof.
  apply (potential_customers_entries "W" "Name: Buyer
Description: d
Cares Most About: m
Cares Least About: l" "x
 Head buyer at Initech - fits"
    (withEmails "W"
       (CustomerPersona.mk "Buyer" "d" "m" "l" ["Head buyer at Initech"] None None))
    "Head buyer at Initech").
  - vm_compute. left. reflexivity.
  - left. reflexivity.
Defined.

(** X18.  When the name of one persona occurs, up to case, inside the
    name of another, every potential customer of the persona with the
    longer name is also a potential customer of the one with the shorter
    name. *)
Theorem overlapping_names (productName text customersText : string)
  (p q : CustomerPersona.t) :
  In p (parseCustomerPersonas productName text customersText) ->
  In q (parseCustomerPersonas productName text customersText) ->
  includes (toLowerCase (CustomerPersona.name q))
           (toLowerCase (CustomerPersona.name p)) = true ->
  incl (CustomerPersona.potentialCustomers q) (CustomerPersona.potentialCustomers p).
Proof.
  intros Hp Hq Hi c Hc.
  rewrite (potentialCustomers_output _ _ _ _ Hp).
  rewrite (potentialCustomers_output _ _ _ _ Hq) in Hc.
  unfold crossReference in *. apply crossReferenceLines_In in Hc.
  destruct Hc as [line [Hl [Hr [-> Hne]]]].
  apply crossReferenceLines_In. exists line. repeat split; try assumption.
  unfold relevant in *. now apply (includes_trans _ _ _ Hr).
Qed.

Lemma overlapping_names_witness :
  incl ["IT Manager at Initech"] ["IT Manager at Initech"; "Manager at Acme"].
Proof.
  apply (overlapping_names "W" "1. Name: Manager
Description: d
Cares Most About: m
Cares Least About: l
2. Name: IT Manager
Description: d
Cares Most About: m
Cares Least About: l" "IT Manager at Initech - fit
Manager at Acme - fit"
    (withEmails "W" (CustomerPersona.mk "Manager" "d" "m" "l"
                       ["IT Manager at Initech"; "Manager at Acme"] None None))
    (withEmails "W" (CustomerPersona.mk "IT Manager" "d" "m" "l"
                       ["IT Manager at Initech"] None None))).
  - vm_compute. left. reflexivity.
  - vm_compute. right. left. reflexivity.
  - reflexivity.
Defined.

(** * Lines that are recognised, responses without numbers *)

Section Recognised.

Lemma before_first_app_sep (sep : ascii) (k v : string) :
  has_char sep k = false -> before_first sep (k ++ String sep v) = k.
Proof.
  intro H. rewrite before_first_app, H. cbn. rewrite Ascii.eqb_refl.
  apply app_empty_r.
Qed.

Lemma after_first_app_sep (sep : ascii) (k v : string) :
  has_char sep k = false -> after_first sep (k ++ String sep v) = Some v.
Proof.
  induction k as [|c k IH]; cbn.
  - now rewrite Ascii.eqb_refl.
  - destruct (Ascii.eqb c sep); [discriminate | exact IH].
Qed.

Lemma lookahead_cuts_plain (s : string) :
  all_chars not_digit s = true ->
  lookahead_cuts heading_at s = [s].
Proof.
  induction s as [|c s IH]; [reflexivity|].
  cbn [all_chars]. intro H. apply andb_true_iff in H. destruct H as [Hc H].
  cbn [lookahead_cuts]. cbv zeta. rewrite (IH H). cbn [cons_head].
  destruct (heading_at (String c s)) eqn:E; [|reflexivity].
  apply heading_at_digit in E. unfold not_digit in Hc. rewrite E in Hc. discriminate.
Qed.

Lemma split_lookahead_plain (s : string) :
  all_chars not_digit s = true ->
  split_lookahead heading_at s = [s].
Proof.
  destruct s as [|c s]; [reflexivity|].
  cbn [all_chars]. intro H. apply andb_true_iff in H. destruct H as [_ H].
  unfold split_lookahead. now rewrite (lookahead_cuts_plain s H).
Qed.

Lemma plain_lists (productName customersText s : string) :
  all_chars not_digit s = true ->
  List.length (parseCompetitors s) <= 1
  /\ List.length (parseApplications s) <= 1
  /\ List.length (parseCustomerPersonas productName s customersText) <= 1.
Proof.
  intro H. unfold parseCompetitors, parseApplications, parseCustomerPersonas.
  rewrite length_map, (split_marker_plain s H).
  rewrite collectCompetitors_flat, collectApplications_flat, collectPersonas_flat.
  cbn [flat_map]. rewrite !app_nil_r.
  pose proof (competitorOf_length s). pose proof (applicationOf_length s).
  pose proof (personaOf_length customersText s). auto.
Qed.

End Recognised.

Section RecognisedValue.

Lemma all_chars_app (f : ascii -> bool) (a b : string) :
  all_chars f (a ++ b) = all_chars f a && all_chars f b.
Proof.
  induction a as [|c a IH]; [reflexivity|].
  cbn. now rewrite IH, andb_assoc.
Qed.

Lemma has_char_after_first (sep : ascii) (s : string) :
  has_char sep s = true -> exists v, after_first sep s = Some v.
Proof.
  induction s as [|c s IH]; [discriminate|].
  cbn. destruct (Ascii.eqb c sep); [eauto | exact IH].
Qed.

(** The value of a line is not empty when the text behind the first colon
    is not blank: a later colon stays in the value, and without one the
    value is the trimmed text. *)
Lemma value_not_blank (v : string) :
  trim v <> "" -> trim (join ":" (map trim (split_char ":"%char v))) <> "".
Proof.
  intro H. destruct (has_char ":"%char v) eqn:C.
  - destruct (has_char_after_first _ _ C) as [u Hu].
    rewrite split_char_cons, Hu.
    pose proof (split_char_nonempty ":"%char u) as NE.
    destruct (split_char ":"%char u) as [|q l]; [contradiction|].
    cbn [map join String.concat]. intro E. apply trim_blank in E.
    rewrite !all_chars_app in E. cbn [all_chars] in E.
    change (is_ws ":"%char) with false in E.
    now rewrite andb_false_r in E.
  - rewrite (split_char_none _ _ C). cbn [map join String.concat].
    now rewrite trim_idem.
Qed.

End RecognisedValue.

(** X19.  A line "key: value" is recognised for a label when the key has
    no colon and, trimmed and put in lower case, is the label, and the value
    is not blank, whether the value holds colons or not: white space around
    key and value and the case of the key do not matter.  The key read is
    the trimmed key, and for a value without colon the stored value is the
    trimmed value. *)
Theorem line_recognised (label key value : string) :
  has_char ":"%char key = false ->
  toLowerCase (trim key) = label ->
  trim key <> "" ->
  trim value <> "" ->
  labelled label (key ++ String ":"%char value) = true
  /\ fst (keyValue (key ++ String ":"%char value)) = trim key
  /\ (has_char ":"%char value = false ->
      keyValue (key ++ String ":"%char value) = (trim key, trim value)).
Proof.
  intros Hk Hl Hne Hvne.
  assert (keyValue (key ++ String ":"%char value)
          = (trim key, trim (join ":" (map trim (split_char ":"%char value))))) as E.
  { now rewrite keyValue_parts, (before_first_app_sep _ _ _ Hk),
      (after_first_app_sep _ _ _ Hk). }
  split; [|split].
  - unfold labelled, skipped. rewrite E.
    apply value_not_blank in Hvne.
    apply truthy_true in Hne. apply truthy_true in Hvne. rewrite Hne, Hvne, Hl.
    cbn. apply String.eqb_refl.
  - now rewrite E.
  - intro Hv. rewrite E, (split_char_none _ _ Hv).
    cbn [map join String.concat]. now rewrite trim_idem.
Qed.

Lemma line_recognised_witness :
  labelled "market size" ("  Market SIZE " ++ String ":"%char "  $5B at 10:30 ") = true
  /\ keyValue ("  Market SIZE " ++ String ":"%char "  $5B ")
     = (trim "  Market SIZE ", trim "  $5B ").
Proof.
  split.
  - apply (line_recognised "market size" "  Market SIZE " "  $5B at 10:30 ");
      try reflexivity; vm_compute; discriminate.
  - apply (line_recognised "market size" "  Market SIZE " "  $5B ");
      try reflexivity; vm_compute; discriminate.
Defined.

(** X20.  A response without any digit has no heading and no marker: the
    section split and the record split leave it in one piece.  Only the
    fragment of the first title found in the order Competitors, Product
    Applications, Customer Personas, Potential Customers is filled, with
    the whole response, and the other fragments stay empty.  The three
    lists together hold at most one entity. *)
Theorem response_without_digit (productName response : string) :
  all_chars not_digit response = true ->
  let data := analyzeResponse productName response in
  split_lookahead heading_at response = [response]
  /\ List.length (competitors data) + List.length (applications data)
     + List.length (customerPersonas data) <= 1
  /\ count_markers response = 0
  /\ split_marker response = [response]
  /\ sectionFragments response = classified_whole response.
Proof.
  intro H. cbv zeta. split; [now apply split_lookahead_plain|].
  split; [|split; [|split]].
  - unfold analyzeResponse, sectionFragments.
    rewrite (split_lookahead_plain response H).
    cbn [fold_left competitors applications customerPersonas]. unfold classify.
    destruct (plain_lists productName "" response H) as [H1 [H2 H4]].
    destruct (includes response "Competitors:");
      [cbn [competitorsSection applicationsSection personasSection customersSection];
       change (parseApplications "") with (@nil Application.t);
       change (parseCustomerPersonas productName "" "") with (@nil CustomerPersona.t);
       cbn [List.length]; lia|].
    destruct (includes response "Product Applications:");
      [cbn [competitorsSection applicationsSection personasSection customersSection];
       change (parseCompetitors "") with (@nil Competitor.t);
       change (parseCustomerPersonas productName "" "") with (@nil CustomerPersona.t);
       cbn [List.length]; lia|].
    destruct (includes response "Customer Personas:").
    + cbn [competitorsSection applicationsSection personasSection customersSection].
      change (parseCompetitors "") with (@nil Competitor.t).
      change (parseApplications "") with (@nil Application.t).
      cbn [List.length]. lia.
    + destruct (includes response "Potential Customers:");
        cbn [competitorsSection applicationsSection personasSection customersSection];
        change (parseCompetitors "") with (@nil Competitor.t);
        change (parseApplications "") with (@nil Application.t);
        [change (parseCustomerPersonas productName "" response)
           with (@nil CustomerPersona.t)
        |change (parseCustomerPersonas productName "" "")
           with (@nil CustomerPersona.t)];
        cbn [List.length]; lia.
  - pose proof (split_marker_length response) as L.
    rewrite (split_marker_plain response H) in L.
    change (List.length [response]) with 1 in L. lia.
  - now apply split_marker_plain.
  - unfold sectionFragments, classified_whole.
    rewrite (split_lookahead_plain response H). reflexivity.
Qed.

Lemma response_without_digit_witness :
  split_lookahead heading_at "Competitors:
Name: Acme" = ["Competitors:
Name: Acme"]
  /\ sectionFragments "Product Applications: see Competitors:"
     = mkFragments "Product Applications: see Competitors:" "" "" "".
Proof.
  split.
  - apply (proj1 (response_without_digit "Widget" "Competitors:
Name: Acme" eq_refl)).
  - apply (proj2 (proj2 (proj2 (proj2 (response_without_digit "Widget"
             "Product Applications: see Competitors:" eq_refl))))).
Defined.

(** * Numbered sub-records *)

Section Numbered.

Lemma ends_with_app (c : ascii) (a b : string) :
  b <> "" -> ends_with c (a ++ b) = ends_with c b.
Proof.
  intro H. induction a as [|x a IH]; [reflexivity|].
  cbn [append ends_with]. rewrite <- IH.
  destruct (a ++ b) eqn:E; [|reflexivity].
  destruct a; cbn in E; [congruence | discriminate].
Qed.

Lemma ends_with_all (f : ascii -> bool) (c : ascii) (s : string) :
  ends_with c s = true -> all_chars f s = true -> f c = true.
Proof.
  induction s as [|x s IH]; [discriminate|].
  cbn [ends_with all_chars]. intros He Ha.
  apply andb_true_iff in Ha. destruct Ha as [Hx Ha].
  destruct s; [|now apply IH].
  apply Ascii.eqb_eq in He. now subst x.
Qed.

(** A text without marker has no marker at any of its positions. *)
Lemma count_zero_suffix (r1 r2 : string) :
  count_markers (r1 ++ r2) = 0 -> match_marker r2 = None.
Proof.
  induction r1 as [|c r1 IH]; cbn [append]; intro H.
  - destruct (match_marker r2) as [x|] eqn:E; [|reflexivity].
    rewrite (count_markers_match _ _ E) in H. discriminate.
  - destruct (match_marker (String c (r1 ++ r2))) as [x|] eqn:E.
    + rewrite (count_markers_match _ _ E) in H. discriminate.
    + rewrite (count_markers_step _ _ E) in H. now apply IH.
Qed.

(** A match that begins in a text ending with a line break lies in it. *)
Lemma match_marker_inside (r rest x : string) :
  ends_with LF r = true ->
  match_marker (r ++ rest) = Some x -> exists y, match_marker r = Some y.
Proof.
  intros He. unfold match_marker. destruct r as [|c r]; [discriminate|].
  cbn [append]. cbv beta iota.
  destruct (is_digit c) eqn:D; [|discriminate].
  destruct (dropWhile_suffix is_digit (String c r)) as [a [Ha Aa]].
  destruct (dropWhile is_digit (String c r)) as [|u q] eqn:E.
  - exfalso. rewrite app_empty_r in Ha. rewrite <- Ha in Aa.
    pose proof (ends_with_all is_digit LF _ He Aa) as C. discriminate.
  - change (String c (r ++ rest)) with (String c r ++ rest).
    rewrite (dropWhile_app _ _ rest _ _ E). cbn [append].
    destruct (Ascii.eqb_spec u "."%char) as [->|]; [|discriminate].
    destruct q as [|y q].
    + exfalso. rewrite Ha, ends_with_app in He by discriminate. discriminate.
    + cbn [append]. destruct (is_ws y); [eauto | discriminate].
Qed.

(** A text in front of which no match begins is scanned through. *)
Lemma split_marker_through (r m first : string) (pieces : list string) :
  (forall r1 r2, r = r1 ++ r2 -> r2 <> "" -> match_marker (r2 ++ m) = None) ->
  split_marker m = first :: pieces ->
  split_marker (r ++ m) = (r ++ first) :: pieces.
Proof.
  intros H Hm. induction r as [|c r IH]; [exact Hm|].
  cbn [append]. rewrite split_marker_step.
  - rewrite IH; [reflexivity|].
    intros r1 r2 E. apply (H (String c r1) r2). now rewrite E.
  - apply (H EmptyString (String c r)); [reflexivity | discriminate].
Qed.

Lemma record_then_marker (r rest : string) :
  count_markers r = 0 -> ends_with LF r = true -> marker_at rest = true ->
  split_marker (r ++ rest) = r :: tl (split_marker rest).
Proof.
  intros Hc He Hm. unfold marker_at in Hm.
  destruct (match_marker rest) as [x|] eqn:E; [clear Hm|discriminate].
  rewrite (split_marker_match _ _ E). cbn [tl].
  rewrite (split_marker_through r rest "" (split_marker x)).
  - now rewrite app_empty_r.
  - intros r1 r2 Hr Hne.
    destruct (match_marker (r2 ++ rest)) as [y|] eqn:M; [|reflexivity].
    exfalso. rewrite Hr, ends_with_app in He by exact Hne.
    destruct (match_marker_inside _ _ _ He M) as [z Hz].
    rewrite Hr in Hc. apply count_zero_suffix in Hc. congruence.
  - now apply split_marker_match.
Qed.

Lemma filter_none (f : string -> bool) (l : list string) :
  (forall q, In q l -> f q = false) -> filter f l = [].
Proof.
  induction l as [|x l IH]; intro H; [reflexivity|].
  cbn [filter]. rewrite (H x) by now left.
  apply IH. intros q Hq. apply H. now right.
Qed.

(** The value of the last labelled line. *)
Lemma lastValue_last_line (label line : string) (pre post : list string) :
  labelled label line = true ->
  (forall q, In q post -> labelled label q = false) ->
  lastValue label (pre ++ line :: post) = Some (snd (keyValue line)).
Proof.
  intros Hl Hp. unfold lastValue, valuesOf.
  rewrite filter_app. cbn [filter]. rewrite Hl, (filter_none _ _ Hp).
  rewrite !map_app. cbn [map]. apply last_last.
Qed.

Lemma competitorBuilt_lines (section n d h r : string) :
  let lines := split_char LF section in
  lastValue "name" lines = Some n -> lastValue "description" lines = Some d ->
  lastValue "headquarters" lines = Some h -> lastValue "revenue" lines = Some r ->
  competitorBuilt (competitorFields section) = Some (Competitor.mk n d h r).
Proof.
  cbv zeta. intros H1 H2 H3 H4.
  destruct (competitorFields_last section) as [E1 [E2 [E3 E4]]].
  destruct (competitorFields section) as [n' d' h' r']. cbn in E1, E2, E3, E4.
  rewrite E1, E2, E3, E4, H1, H2, H3, H4. cbn [competitorBuilt].
  now rewrite (lastValue_truthy _ _ _ H1), (lastValue_truthy _ _ _ H2),
    (lastValue_truthy _ _ _ H3), (lastValue_truthy _ _ _ H4).
Qed.

Lemma applicationBuilt_lines (section n d m g : string) :
  let lines := split_char LF section in
  lastValue "name" lines = Some n -> lastValue "description" lines = Some d ->
  lastValue "market size" lines = Some m -> lastValue "growth rate" lines = Some g ->
  applicationBuilt (applicationFields section) = Some (Application.mk n d m g).
Proof.
  cbv zeta. intros H1 H2 H3 H4.
  destruct (applicationFields_last section) as [E1 [E2 [E3 E4]]].
  destruct (applicationFields section) as [n' d' m' g']. cbn in E1, E2, E3, E4.
  rewrite E1, E2, E3, E4, H1, H2, H3, H4. cbn [applicationBuilt].
  now rewrite (lastValue_truthy _ _ _ H1), (lastValue_truthy _ _ _ H2),
    (lastValue_truthy _ _ _ H3), (lastValue_truthy _ _ _ H4).
Qed.

Lemma personaBuilt_lines (customersText section n d m l : string) :
  let lines := split_char LF section in
  lastValue "name" lines = Some n -> lastValue "description" lines = Some d ->
  lastValue "cares most about" lines = Some m ->
  lastValue "cares least about" lines = Some l ->
  personaBuilt customersText (personaFields section)
  = Some (CustomerPersona.mk n d m l (relevantCustomers n customersText) None None).
Proof.
  cbv zeta. intros H1 H2 H3 H4.
  destruct (personaFields_last section) as [E1 [E2 [E3 E4]]].
  destruct (personaFields section) as [n' d' m' l' pc]. cbn in E1, E2, E3, E4.
  rewrite E1, E2, E3, E4, H1, H2, H3, H4. cbn [personaBuilt].
  now rewrite (lastValue_truthy _ _ _ H1), (lastValue_truthy _ _ _ H2),
    (lastValue_truthy _ _ _ H3), (lastValue_truthy _ _ _ H4).
Qed.

End Numbered.

Section LeadingMarker.

Lemma trimStart_app (r rest : string) :
  trimStart r = r -> r <> "" -> trimStart (r ++ rest) = r ++ rest.
Proof.
  destruct r as [|c r]; [contradiction|]. intros H _.
  unfold trimStart in *. cbn [append dropWhile] in *.
  destruct (is_ws c); [|reflexivity].
  exfalso. apply (f_equal String.length) in H. cbn in H.
  pose proof (dropWhile_length is_ws r). lia.
Qed.

End LeadingMarker.

(** C3, amended.  The record split uses the leading marker as a separator
    that it consumes.  For a fragment that begins with a marker (digits, a
    dot, white space), the first piece is empty, and the sub-record behind
    the marker, which runs to the end of the fragment or to the next marker
    at the start of a line, is one piece without its marker text, of one
    line or of many; the split goes on in the same way at the next marker.
    This is stated for a sub-record whose own text holds no marker. *)
Theorem leading_marker_consumed (d w r rest : string) :
  d <> "" -> all_chars is_digit d = true ->
  w <> "" -> all_chars is_ws w = true ->
  trimStart r = r -> count_markers r = 0 ->
  rest = "" \/ (ends_with LF r = true /\ marker_at rest = true) ->
  split_marker (d ++ "." ++ w ++ r ++ rest) = "" :: r :: tl (split_marker rest).
Proof.
  intros Hd Ad Hw Aw Hr Hc Hrest.
  assert (trimStart (r ++ rest) = r ++ rest) as Ht.
  { destruct r as [|c r].
    - destruct Hrest as [->|[He _]]; [reflexivity | discriminate].
    - apply trimStart_app; [exact Hr | discriminate]. }
  rewrite (split_marker_match _ _ (match_marker_make d w (r ++ rest) Hd Ad Hw Aw Ht)).
  f_equal. destruct Hrest as [->|[He Hm]].
  - rewrite app_empty_r. now apply split_marker_clean.
  - now apply record_then_marker.
Qed.

(** Two records of two lines each. *)
Lemma leading_marker_consumed_witness :
  split_marker ("1" ++ "." ++ " " ++ "Name: Acme
Revenue: $1B

" ++ "2. Name: Globex
Revenue: $2B")
  = "" :: "Name: Acme
Revenue: $1B

" :: tl (split_marker "2. Name: Globex
Revenue: $2B").
Proof.
  apply leading_marker_consumed; try reflexivity; try discriminate.
  right. split; reflexivity.
Defined.

(** C9.  In a sub-record, each field of the mapping holds the value of the
    last line that carries the field's label with non-empty key and value:
    a later line with the same label overwrites an earlier one.  The last
    value of a label is the value of a labelled line behind which no line
    has the label.  The entity built from the sub-record holds these last
    values, and it is built whenever all four labels have one. *)
Theorem last_label_wins (customersText section : string) :
  let lines := split_char LF section in
  (PartialCompetitor.name (competitorFields section) = lastValue "name" lines
   /\ PartialCompetitor.description (competitorFields section)
      = lastValue "description" lines
   /\ PartialCompetitor.headquarters (competitorFields section)
      = lastValue "headquarters" lines
   /\ PartialCompetitor.revenue (competitorFields section) = lastValue "revenue" lines)
  /\ (PartialApplication.name (applicationFields section) = lastValue "name" lines
      /\ PartialApplication.description (applicationFields section)
         = lastValue "description" lines
      /\ PartialApplication.marketSize (applicationFields section)
         = lastValue "market size" lines
      /\ PartialApplication.growthRate (applicationFields section)
         = lastValue "growth rate" lines)
  /\ (PartialPersona.name (personaFields section) = lastValue "name" lines
      /\ PartialPersona.description (personaFields section)
         = lastValue "description" lines
      /\ PartialPersona.caresMostAbout (personaFields section)
         = lastValue "cares most about" lines
      /\ PartialPersona.caresLeastAbout (personaFields section)
         = lastValue "cares least about" lines)
  /\ (forall label pre line post,
        lines = (pre ++ line :: post)%list ->
        labelled label line = true ->
        (forall q, In q post -> labelled label q = false) ->
        lastValue label lines = Some (snd (keyValue line)))
  /\ (forall c, competitorBuilt (competitorFields section) = Some c ->
     lastValue "name" lines = Some (Competitor.name c)
     /\ lastValue "description" lines = Some (Competitor.description c)
     /\ lastValue "headquarters" lines = Some (Competitor.headquarters c)
     /\ lastValue "revenue" lines = Some (Competitor.revenue c))
  /\ (forall a, applicationBuilt (applicationFields section) = Some a ->
     lastValue "name" lines = Some (Application.name a)
     /\ lastValue "description" lines = Some (Application.description a)
     /\ lastValue "market size" lines = Some (Application.marketSize a)
     /\ lastValue "growth rate" lines = Some (Application.growthRate a))
  /\ (forall p, personaBuilt customersText (personaFields section) = Some p ->
     lastValue "name" lines = Some (CustomerPersona.name p)
     /\ lastValue "description" lines = Some (CustomerPersona.description p)
     /\ lastValue "cares most about" lines = Some (CustomerPersona.caresMostAbout p)
     /\ lastValue "cares least about" lines = Some (CustomerPersona.caresLeastAbout p))
  /\ (forall n d h r,
        lastValue "name" lines = Some n -> lastValue "description" lines = Some d ->
        lastValue "headquarters" lines = Some h -> lastValue "revenue" lines = Some r ->
        competitorBuilt (competitorFields section) = Some (Competitor.mk n d h r))
  /\ (forall n d m g,
        lastValue "name" lines = Some n -> lastValue "description" lines = Some d ->
        lastValue "market size" lines = Some m ->
        lastValue "growth rate" lines = Some g ->
        applicationBuilt (applicationFields section) = Some (Application.mk n d m g))
  /\ (forall n d m l,
        lastValue "name" lines = Some n -> lastValue "description" lines = Some d ->
        lastValue "cares most about" lines = Some m ->
        lastValue "cares least about" lines = Some l ->
        personaBuilt customersText (personaFields section)
        = Some (CustomerPersona.mk n d m l (relevantCustomers n customersText)
                  None None)).
Proof.
  cbv zeta.
  split; [apply competitorFields_last|].
  split; [apply applicationFields_last|].
  split; [apply personaFields_last|].
  split; [intros label pre line post -> Hl Hp; now apply lastValue_last_line|].
  split.
  { intros c H. apply competitorBuilt_Some in H. destruct H as [H _].
    destruct (competitorFields_last section) as [H1 [H2 [H3 H4]]].
    rewrite <- H1, <- H2, <- H3, <- H4, H. auto. }
  split.
  { intros a H. apply applicationBuilt_Some in H. destruct H as [H _].
    destruct (applicationFields_last section) as [H1 [H2 [H3 H4]]].
    rewrite <- H1, <- H2, <- H3, <- H4, H. auto. }
  split.
  { intros p H. apply personaBuilt_Some in H.
    destruct H as [E1 [E2 [E3 [E4 _]]]].
    destruct (personaFields_last section) as [H1 [H2 [H3 H4]]].
    rewrite <- H1, <- H2, <- H3, <- H4. auto. }
  split; [intros n d h r; apply competitorBuilt_lines|].
  split; [intros n d m g; apply applicationBuilt_lines|].
  intros n d m l. apply personaBuilt_lines.
Qed.

(** A block that names the competitor twice: the mapping and the entity
    hold the second name. *)
Lemma last_label_wins_witness :
  PartialCompetitor.name (competitorFields "Name: Acme
Name: Acme Corp
Description: Anvils
Headquarters: Tucson
Revenue: $10B") = Some "Acme Corp"
  /\ competitorBuilt (competitorFields "Name: Acme
Name: Acme Corp
Description: Anvils
Headquarters: Tucson
Revenue: $10B") = Some (Competitor.mk "Acme Corp" "Anvils" "Tucson" "$10B").
Proof.
  destruct (last_label_wins "" "Name: Acme
Name: Acme Corp
Description: Anvils
Headquarters: Tucson
Revenue: $10B") as [[A _] [_ [_ [B [_ [_ [_ [D _]]]]]]]].
  split.
  - rewrite A.
    apply (B "name" ["Name: Acme"] "Name: Acme Corp"
             ["Description: Anvils"; "Headquarters: Tucson"; "Revenue: $10B"]).
    + reflexivity.
    + reflexivity.
    + intros q [<-|[<-|[<-|[]]]]; reflexivity.
  - apply D; reflexivity.
Defined.

(** X21.  The record split, free of fuel: where the text begins with a
    marker an empty piece is closed and the scan goes on behind the marker,
    elsewhere the character joins the current piece.  No piece of the split
    contains a marker, and a text without marker, of one line or of many, is
    one piece. *)
Theorem record_split_clean :
  (forall s rest, match_marker s = Some rest ->
     split_marker s = "" :: split_marker rest)
  /\ (forall c s, match_marker (String c s) = None ->
     split_marker (String c s) = cons_head c (split_marker s))
  /\ (forall s p, In p (split_marker s) -> count_markers p = 0)
  /\ (forall s, count_markers s = 0 -> split_marker s = [s]).
Proof.
  split; [exact split_marker_match|].
  split; [exact split_marker_step|].
  split; [exact split_marker_pieces_clean | exact split_marker_clean].
Qed.

Lemma record_split_clean_witness :
  split_marker "1. Name: Acme" = "" :: split_marker "Name: Acme"
  /\ count_markers "Name: Acme
Revenue: $1B
" = 0
  /\ split_marker "Name: Acme
Revenue: $1B" = ["Name: Acme
Revenue: $1B"].
Proof.
  destruct record_split_clean as [H1 [_ [H3 H4]]].
  split; [|split].
  - apply H1. reflexivity.
  - apply (H3 "1. Name: Acme
Revenue: $1B
2. Name: Globex"). vm_compute. auto.
  - apply H4. reflexivity.
Defined.
